(** * The openpilot manager: supervisor loop and lifecycle orchestrator

    A shallow embedding of [selfdrive/manager/manager.py].  The Python
    code is sequential and effectful: it mutates the parameter store,
    mutates [os.environ], calls the process wrappers and the message bus,
    and raises exceptions.  It is embedded in a state-and-exception monad
    over a [World] that holds the parameter store, the environment and the
    history of every external call made so far.  What the collaborators
    outside this file do (whether a call raises, what the version
    functions return, how the store encodes a boolean) is read from a
    record [Ext], so every theorem holds for all behaviours of the
    collaborators. *)

From Stdlib Require Import ZArith QArith Ascii String List Bool Lia.
From stdpp Require Import gmap strings list pretty.

Local Open Scope string_scope.
Local Open Scope list_scope.

(** ** Exceptions *)

(** Python exceptions, as far as [manager.py] tells them apart:
    [except Exception] catches every [PyException] and neither
    [SystemExit] (raised by the SIGTERM handler through [sys.exit(1)])
    nor [KeyboardInterrupt]. *)
Inductive exn :=
| PyException (cls : string)
| SystemExit (code : Z)
| KeyboardInterrupt.

Definition is_Exception (e : exn) : bool :=
  match e with PyException _ => true | _ => false end.

Definition is_class (cls : string) (e : exn) : bool :=
  match e with PyException c => String.eqb c cls | _ => false end.

(** ** The parameter store's key categories *)

Inductive ParamKeyType :=
| CLEAR_ON_MANAGER_START
| CLEAR_ON_ONROAD_TRANSITION
| CLEAR_ON_OFFROAD_TRANSITION
| DEVELOPMENT_ONLY.

Definition ParamKeyType_eqb (a b : ParamKeyType) : bool :=
  match a, b with
  | CLEAR_ON_MANAGER_START, CLEAR_ON_MANAGER_START
  | CLEAR_ON_ONROAD_TRANSITION, CLEAR_ON_ONROAD_TRANSITION
  | CLEAR_ON_OFFROAD_TRANSITION, CLEAR_ON_OFFROAD_TRANSITION
  | DEVELOPMENT_ONLY, DEVELOPMENT_ONLY => true
  | _, _ => false
  end.

(** ** Events: every call that leaves [manager.py] *)

Inductive Event :=
| Enter (fn : string)                      (* ghost: a function of manager.py is entered *)
| Log (msg : string)                       (* cloudlog.*, print, traceback.print_exc *)
| Call_set_time
| Call_save_bootlog
| Call_os_remove (path : string)
| Call_os_mkdir (path : string)
| Params_clear_all (t : ParamKeyType)
| Params_put (key value : string)
| Call_register
| Call_sentry_init
| Call_sentry_capture_exception
| Call_prepare (p : string)
| Call_set_model
| Call_stop (p : string) (block : bool)
| Call_write_onroad_params (started : bool)
| Call_ensure_running (started : bool) (not_run : list string)
| Call_sm_update
| Call_is_alive (p : string)
| Call_get_process_state_msg (p : string)
| Call_pm_send (service : string) (processes : list string)
| Call_signal_SIGTERM
| Call_uninstall
| Call_reboot
| Call_shutdown.

(** ** The collaborators *)

(** Everything [manager.py] imports and this file does not embed.
    [fault h ev] tells whether the external call [ev], made after the
    history [h], raises; [helper_store ev] is what a helper that is handed
    the [Params] object ([write_onroad_params], [ensure_running],
    [set_model]) does to the store. *)
Record Ext := {
  (* process_config.managed_processes: the names, in dict order *)
  registry : list string;
  (* processes whose p.proc is set, for the line printed each tick *)
  has_proc : list Event -> string -> bool;
  (* outcome of external calls *)
  fault : list Event -> Event -> option exn;
  helper_store : Event -> gmap string string -> gmap string string;
  (* common.params: key categories and value encodings *)
  key_type : string -> ParamKeyType -> bool;
  decode_bool : option string -> bool;
  encode_bool : bool -> string;
  decode_int : option string -> Z;
  encode_int : Z -> string;
  decode_float : option string -> Q;
  encode_float : Q -> string;
  (* system.version, system.hardware, cereal.log, registration *)
  PC : bool;
  is_release_branch : bool;
  is_tested_branch : bool;
  is_dirty : bool;
  get_short_branch : string;
  get_version : string;
  get_commit : string;
  get_origin : string;
  terms_version : string;
  training_version : string;
  LongitudinalPersonality_standard : string;
  UNREGISTERED_DONGLE_ID : string;
  register_result : list Event -> option string;
  (* the file system and the clock *)
  CRASHES_DIR : string;
  BASEDIR : string;
  os_path_isfile : list Event -> string -> bool;
  os_path_exists : list Event -> string -> bool;
  utcnow_isoformat : list Event -> string;
  datetime_now : list Event -> string;
}.

(** ** The world and the monad *)

Record World := {
  store : gmap string string;     (* Params *)
  environ : gmap string string;   (* os.environ *)
  trace : list Event;             (* history, oldest first *)
}.

Definition with_store (f : gmap string string -> gmap string string) (w : World) : World :=
  {| store := f (store w); environ := environ w; trace := trace w |}.

Definition with_environ (f : gmap string string -> gmap string string) (w : World) : World :=
  {| store := store w; environ := f (environ w); trace := trace w |}.

Definition record (ev : Event) (w : World) : World :=
  {| store := store w; environ := environ w; trace := trace w ++ [ev] |}.

(** A computation ends normally, raises, or is cut off because the
    finite prefix of the state stream it was given is used up ([Fuel]):
    the [while True] loop of [manager_thread] has no other way to be run. *)
Inductive Res (A : Type) :=
| Ok (a : A)
| Raise (e : exn)
| Fuel.
Arguments Ok {A} a.
Arguments Raise {A} e.
Arguments Fuel {A}.

Definition M (A : Type) : Type := World -> Res A * World.

Definition ret {A} (a : A) : M A := fun w => (Ok a, w).

Definition bind {A B} (m : M A) (f : A -> M B) : M B := fun w =>
  match m w with
  | (Ok a, w1) => f a w1
  | (Raise e, w1) => (Raise e, w1)
  | (Fuel, w1) => (Fuel, w1)
  end.

Definition raise {A} (e : exn) : M A := fun w => (Raise e, w).

Definition out_of_fuel {A} : M A := fun w => (Fuel, w).

Notation "x <- m ;; k" := (bind m (fun x => k))
  (at level 100, m at next level, right associativity).
Notation "m ;;; k" := (bind m (fun _ => k))
  (at level 100, right associativity).

(** [for x in l: body(x)] *)
Fixpoint for_ {A} (l : list A) (body : A -> M unit) : M unit :=
  match l with
  | [] => ret tt
  | x :: l' => body x ;;; for_ l' body
  end.

(** [if c: body] *)
Definition when (c : bool) (body : M unit) : M unit :=
  if c then body else ret tt.

(** [try: body / except <catches>: handler] *)
Definition try_except {A} (body : M A) (catches : exn -> bool) (handler : exn -> M A) : M A :=
  fun w =>
    match body w with
    | (Raise e, w1) => if catches e then handler e w1 else (Raise e, w1)
    | rw => rw
    end.

(** [try: body / finally: fin].  The [finally] block runs on every way
    out of the body; an exception of the [finally] block replaces the
    pending one. *)
Definition try_finally {A} (body : M A) (fin : M unit) : M A :=
  fun w =>
    match body w with
    | (Fuel, w1) => (Fuel, w1)
    | (r, w1) =>
        match fin w1 with
        | (Ok _, w2) => (r, w2)
        | (Raise e, w2) => (Raise e, w2)
        | (Fuel, w2) => (Fuel, w2)
        end
    end.

Definition get_trace : M (list Event) := fun w => (Ok (trace w), w).
Definition get_store : M (gmap string string) := fun w => (Ok (store w), w).

(** An event that cannot raise. *)
Definition emit (ev : Event) : M unit := fun w => (Ok tt, record ev w).

Section Manager.

Context (X : Ext).

(** An external call: recorded, then it returns or raises as [fault] says. *)
Definition call (ev : Event) : M unit := fun w =>
  match fault X (trace w) ev with
  | Some e => (Raise e, record ev w)
  | None => (Ok tt, record ev w)
  end.

(** An external call that is handed the [Params] object. *)
Definition call_with_params (ev : Event) : M unit := fun w =>
  match fault X (trace w) ev with
  | Some e => (Raise e, record ev w)
  | None => (Ok tt, record ev (with_store (helper_store X ev) w))
  end.

Definition cloudlog (msg : string) : M unit := emit (Log msg).

(** ** Params *)

(** Modelled from the spec: the Config Store ([common.params.Params]) is
    not part of the sources; section 6 gives its interface,
    [get*(key) -> value|absent], [put*(key, value)] and
    [clear_all(category)].  Values are stored as strings; how a boolean,
    an integer or a float is written is left to [Ext]. *)
Definition params_get (k : string) : M (option string) :=
  fun w => (Ok (store w !! k), w).

Definition params_put (k v : string) : M unit :=
  fun w => (Ok tt, record (Params_put k v) (with_store (insert k v) w)).

Definition params_get_bool (k : string) : M bool :=
  fun w => (Ok (decode_bool X (store w !! k)), w).

Definition params_put_bool (k : string) (b : bool) : M unit :=
  params_put k (encode_bool X b).

Definition params_get_int (k : string) : M Z :=
  fun w => (Ok (decode_int X (store w !! k)), w).

Definition params_put_int (k : string) (n : Z) : M unit :=
  params_put k (encode_int X n).

Definition params_get_float (k : string) : M Q :=
  fun w => (Ok (decode_float X (store w !! k)), w).

Definition params_put_float (k : string) (q : Q) : M unit :=
  params_put k (encode_float X q).

Definition clear_keys (t : ParamKeyType) (s : gmap string string) : gmap string string :=
  filter (fun kv => key_type X kv.1 t = false) s.

Definition params_clear_all (t : ParamKeyType) : M unit :=
  fun w => (Ok tt, record (Params_clear_all t) (with_store (clear_keys t) w)).

(** ** os *)

Definition os_getenv (k : string) : M (option string) :=
  fun w => (Ok (environ w !! k), w).

Definition os_environ_set (k v : string) : M unit :=
  fun w => (Ok tt, with_environ (insert k v) w).

Definition os_path_join (a b : string) : string := a ++ "/" ++ b.

(** ** manager_init *)

(** Lines 50-176: the static table of defaults; [FrogsGoMoo] is
    [get_short_branch() == "FrogPilot-Development"]. *)
Definition default_params_table (FrogsGoMoo : bool) : list (string * string) :=
  [ ("CompletedTrainingVersion", if FrogsGoMoo then "0.2.0" else "0");
    ("DisengageOnAccelerator", "0");
    ("GsmMetered", if FrogsGoMoo then "0" else "1");
    ("HasAcceptedTerms", if FrogsGoMoo then "2" else "0");
    ("LanguageSetting", "main_en");
    ("OpenpilotEnabledToggle", "1");
    ("LongitudinalPersonality", LongitudinalPersonality_standard X);
    ("AccelerationPath", "1");
    ("AccelerationProfile", if FrogsGoMoo then "3" else "2");
    ("AdjacentPath", if FrogsGoMoo then "1" else "0");
    ("AdjacentPathMetrics", if FrogsGoMoo then "1" else "0");
    ("AdjustablePersonalities", "1");
    ("AggressiveAcceleration", "1");
    ("AggressiveFollow", if FrogsGoMoo then "10" else "12");
    ("AggressiveJerk", if FrogsGoMoo then "6" else "5");
    ("AlwaysOnLateral", "1");
    ("AlwaysOnLateralMain", if FrogsGoMoo then "1" else "0");
    ("BlindSpotPath", "1");
    ("CameraView", if FrogsGoMoo then "1" else "0");
    ("CECurves", "1");
    ("CENavigation", "1");
    ("CESignal", "1");
    ("CESlowerLead", "0");
    ("CESpeed", "0");
    ("CESpeedLead", "0");
    ("CEStopLights", "1");
    ("CEStopLightsLead", if FrogsGoMoo then "0" else "1");
    ("Compass", if FrogsGoMoo then "1" else "0");
    ("ConditionalExperimental", "1");
    ("CurveSensitivity", if FrogsGoMoo then "125" else "100");
    ("CustomColors", "1");
    ("CustomIcons", "1");
    ("CustomPersonalities", "1");
    ("CustomSignals", "1");
    ("CustomSounds", "1");
    ("CustomTheme", "1");
    ("CustomUI", "1");
    ("DeviceShutdown", "9");
    ("DriverCamera", "0");
    ("DriveStats", "1");
    ("EVTable", if FrogsGoMoo then "0" else "1");
    ("ExperimentalModeActivation", "1");
    ("ExperimentalModeViaLKAS", if FrogsGoMoo then "1" else "0");
    ("ExperimentalModeViaScreen", if FrogsGoMoo then "0" else "1");
    ("Fahrenheit", "0");
    ("FireTheBabysitter", if FrogsGoMoo then "1" else "0");
    ("FPSCounter", if FrogsGoMoo then "1" else "0");
    ("FullMap", "0");
    ("GasRegenCmd", "0");
    ("GoatScream", "1");
    ("GreenLightAlert", "0");
    ("HideSpeed", "0");
    ("HideSpeedUI", "0");
    ("HigherBitrate", if FrogsGoMoo then "1" else "0");
    ("LaneChangeTime", "0");
    ("LaneDetection", "1");
    ("LaneLinesWidth", "4");
    ("LateralTune", "1");
    ("LeadInfo", if FrogsGoMoo then "1" else "0");
    ("LockDoors", "0");
    ("LongitudinalTune", "1");
    ("LongPitch", if FrogsGoMoo then "0" else "1");
    ("LowerVolt", if FrogsGoMoo then "0" else "1");
    ("MTSCAggressiveness", if FrogsGoMoo then "100" else "100");
    ("Model", "0");
    ("ModelUI", "1");
    ("MTSCEnabled", if FrogsGoMoo then "0" else "1");
    ("MuteDM", if FrogsGoMoo then "1" else "0");
    ("MuteDoor", if FrogsGoMoo then "1" else "0");
    ("MuteOverheated", if FrogsGoMoo then "1" else "0");
    ("MuteSeatbelt", if FrogsGoMoo then "1" else "0");
    ("NNFF", "1");
    ("NoLogging", "0");
    ("NudgelessLaneChange", "1");
    ("NumericalTemp", if FrogsGoMoo then "1" else "0");
    ("Offset1", "5");
    ("Offset2", if FrogsGoMoo then "7" else "5");
    ("Offset3", if FrogsGoMoo then "10" else "5");
    ("Offset4", if FrogsGoMoo then "20" else "10");
    ("OneLaneChange", "1");
    ("PathEdgeWidth", "20");
    ("PathWidth", "61");
    ("PauseLateralOnSignal", "0");
    ("PersonalitiesViaScreen", if FrogsGoMoo then "0" else "1");
    ("PersonalitiesViaWheel", "1");
    ("PreferredSchedule", "0");
    ("QOLControls", "1");
    ("QOLVisuals", "1");
    ("RandomEvents", if FrogsGoMoo then "1" else "0");
    ("RelaxedFollow", if FrogsGoMoo then "30" else "18");
    ("RelaxedJerk", if FrogsGoMoo then "50" else "10");
    ("ReverseCruise", "0");
    ("ReverseCruiseUI", "0");
    ("RoadEdgesWidth", "2");
    ("RoadNameUI", "1");
    ("RotatingWheel", "1");
    ("ScreenBrightness", "101");
    ("SearchInput", "0");
    ("SetSpeedOffset", "0");
    ("ShowCPU", if FrogsGoMoo then "1" else "0");
    ("ShowGPU", "0");
    ("ShowMemoryUsage", if FrogsGoMoo then "1" else "0");
    ("Sidebar", if FrogsGoMoo then "1" else "0");
    ("SilentMode", "0");
    ("SLCFallback", "2");
    ("SLCOverride", "1");
    ("SLCPriority1", "1");
    ("SLCPriority2", "2");
    ("SLCPriority3", "3");
    ("SmoothBraking", "1");
    ("SNGHack", if FrogsGoMoo then "0" else "1");
    ("SpeedLimitController", "1");
    ("StandardFollow", "15");
    ("StandardJerk", "10");
    ("StoppingDistance", if FrogsGoMoo then "3" else "0");
    ("TSS2Tune", "1");
    ("TurnAggressiveness", if FrogsGoMoo then "150" else "100");
    ("TurnDesires", if FrogsGoMoo then "1" else "0");
    ("UnlimitedLength", "1");
    ("UseSI", if FrogsGoMoo then "1" else "0");
    ("UseVienna", "0");
    ("VisionTurnControl", "1");
    ("WheelIcon", if FrogsGoMoo then "1" else "3") ].

(** Lines 48-178: the table, with [LastUpdateTime] appended off a PC. *)
Definition default_params : M (list (string * string)) :=
  let FrogsGoMoo := String.eqb (get_short_branch X) "FrogPilot-Development" in
  if negb (PC X)
  then h <- get_trace ;;
       ret (default_params_table FrogsGoMoo ++ [("LastUpdateTime", utcnow_isoformat X h)])
  else ret (default_params_table FrogsGoMoo).

(** Lines 183-186: [for k, v in default_params: if params.get(k) is None: params.put(k, v)] *)
Definition set_unset_params (dp : list (string * string)) : M unit :=
  for_ dp (fun kv =>
    cur <- params_get kv.1 ;;
    match cur with
    | None => params_put kv.1 kv.2
    | Some _ => ret tt
    end).

(** Lines 195-214. *)
Definition priorities_mapping : list (Z * list string) :=
  [ (1, ["Dashboard"; "Navigation"; "Offline Maps"]);
    (2, ["Navigation"; "Offline Maps"; "Dashboard"]);
    (3, ["Navigation"; "Offline Maps"; "None"]);
    (4, ["Navigation"; "Dashboard"; "None"]);
    (5, ["Navigation"; "None"; "None"]);
    (6, ["Offline Maps"; "Dashboard"; "Navigation"]);
    (7, ["Offline Maps"; "Navigation"; "Dashboard"]);
    (8, ["Offline Maps"; "Navigation"; "None"]);
    (9, ["Offline Maps"; "Dashboard"; "None"]);
    (10, ["Offline Maps"; "None"; "None"]);
    (11, ["Dashboard"; "Navigation"; "Offline Maps"]);
    (12, ["Dashboard"; "Offline Maps"; "Navigation"]);
    (13, ["Dashboard"; "Offline Maps"; "None"]);
    (14, ["Dashboard"; "Navigation"; "None"]);
    (15, ["Dashboard"; "None"; "None"]);
    (16, ["Highest"; "None"; "None"]);
    (17, ["Lowest"; "None"; "None"]);
    (18, ["None"; "None"; "None"]) ]%Z.

Definition primary_priorities : list string :=
  ["None"; "Dashboard"; "Navigation"; "Offline Maps"; "Highest"; "Lowest"].

(** [dict.get(k, default)] *)
Fixpoint dict_get {V} (d : list (Z * V)) (k : Z) (default : V) : V :=
  match d with
  | [] => default
  | (k', v) :: d' => if Z.eqb k' k then v else dict_get d' k default
  end.

(** [list.index(x)], [None] where Python raises [ValueError]. *)
Fixpoint list_index (l : list string) (x : string) : option nat :=
  match l with
  | [] => None
  | y :: l' => if String.eqb y x then Some 0%nat else S <$> list_index l' x
  end.

(** [enumerate(l, start)] *)
Fixpoint enumerate {A} (l : list A) (start : nat) : list (nat * A) :=
  match l with
  | [] => []
  | x :: l' => (start, x) :: enumerate l' (S start)
  end.

(** Lines 193-221: the one-time remapping of the legacy [SLCPriority]. *)
Definition migrate_slc_priority : M unit :=
  slc_priority <- params_get_int "SLCPriority" ;;
  when (negb (Z.eqb slc_priority 0))
    (let old_priorities :=
       dict_get priorities_mapping (slc_priority + 1) ["None"; "None"; "None"] in
     for_ (enumerate old_priorities 1) (fun ip =>
       match list_index primary_priorities ip.2 with
       | None => raise (PyException "ValueError")
       | Some idx =>
           params_put_float ("SLCPriority" ++ pretty ip.1) (inject_Z (Z.of_nat idx)) ;;;
           params_put_int "SLCPriority" 0
       end)).

(** Lines 31-186: boot housekeeping, the stale categories, the defaults. *)
Definition manager_init_params : M unit :=
  emit (Enter "manager_init") ;;;
  (* update system time from panda *)
  call Call_set_time ;;;
  (* save boot log *)
  call Call_save_bootlog ;;;
  (* clear the error log on boot *)
  h <- get_trace ;;
  when (os_path_isfile X h (os_path_join (CRASHES_DIR X) "error.txt"))
    (call (Call_os_remove (os_path_join (CRASHES_DIR X) "error.txt"))) ;;;
  params_clear_all CLEAR_ON_MANAGER_START ;;;
  params_clear_all CLEAR_ON_ONROAD_TRANSITION ;;;
  params_clear_all CLEAR_ON_OFFROAD_TRANSITION ;;;
  when (is_release_branch X) (params_clear_all DEVELOPMENT_ONLY) ;;;
  dp <- default_params ;;
  record_front_lock <- params_get_bool "RecordFrontLock" ;;
  when record_front_lock (params_put_bool "RecordFront" true) ;;;
  (* set unset params *)
  set_unset_params dp.

(** Lines 188-261: the legacy migrations, the msgq folder, the version
    stamps, the dongle id, logging. *)
Definition manager_init_identity : M unit :=
  (* remove this after the June 14th update *)
  previous_speed_limit <- params_get_float "PreviousSpeedLimit" ;;
  when (Qle_bool (50 # 1) previous_speed_limit)
    (params_put_float "PreviousSpeedLimit" (Qdiv previous_speed_limit (100 # 1))) ;;;
  migrate_slc_priority ;;;
  (* create folders needed for msgq *)
  try_except (call (Call_os_mkdir "/dev/shm"))
    (fun e => is_class "FileExistsError" e || is_class "PermissionError" e)
    (fun e => if is_class "FileExistsError" e then ret tt
              else emit (Log "WARNING: failed to make /dev/shm")) ;;;
  (* set version params *)
  params_put "Version" (get_version X) ;;;
  params_put "TermsVersion" (terms_version X) ;;;
  params_put "TrainingVersion" (training_version X) ;;;
  params_put "GitCommit" (get_commit X) ;;;
  params_put "GitBranch" (get_short_branch X) ;;;
  params_put "GitRemote" (get_origin X) ;;;
  params_put_bool "IsTestedBranch" (is_tested_branch X) ;;;
  params_put_bool "IsReleaseBranch" (is_release_branch X) ;;;
  (* set dongle id *)
  call Call_register ;;;
  h <- get_trace ;;
  dongle_id <-
    match register_result X h with
    | Some (String c r) => ret (String c r)
    | _ =>
        serial <- params_get "HardwareSerial" ;;
        raise (PyException "Exception")
    end ;;
  os_environ_set "DONGLE_ID" dongle_id ;;;
  when (negb (is_dirty X)) (os_environ_set "CLEAN" "1") ;;;
  (* init logging *)
  call Call_sentry_init ;;;
  cloudlog "bind_global".

(** Lines 263-265: [for p in managed_processes.values(): p.prepare()] *)
Definition preimport : M unit :=
  for_ (registry X) (fun p => call (Call_prepare p)).

(** Lines 263-268: the pre-import of every process, the model. *)
Definition manager_init_preimport : M unit :=
  (* preimport all processes *)
  preimport ;;;
  (* set the desired model *)
  call_with_params Call_set_model.

(** Lines 30-268, in the order of the source. *)
Definition manager_init : M unit :=
  manager_init_params ;;;
  manager_init_identity ;;;
  manager_init_preimport.

(** ** manager_cleanup *)

Definition manager_cleanup : M unit :=
  emit (Enter "manager_cleanup") ;;;
  (* send signals to kill all procs *)
  for_ (registry X) (fun p => call (Call_stop p false)) ;;;
  (* ensure all are killed *)
  for_ (registry X) (fun p => call (Call_stop p true)) ;;;
  cloudlog "everything is dead".

(** ** manager_thread *)

(** [s.split(sep)] for a one-character separator. *)
Fixpoint split_on (sep : ascii) (s : string) : list string :=
  match s with
  | EmptyString => [EmptyString]
  | String c s' =>
      if Ascii.eqb c sep then EmptyString :: split_on sep s'
      else match split_on sep s' with
           | [] => [String c EmptyString]
           | x :: xs => String c x :: xs
           end
  end.

(** Lines 289-294: the processes that are never run, fixed before the
    loop starts. *)
Definition ignore_list : M (list string) :=
  dongle <- params_get "DongleId" ;;
  let ignore1 :=
    match dongle with
    | None => ["manage_athenad"; "uploader"]
    | Some d => if String.eqb d (UNREGISTERED_DONGLE_ID X)
                then ["manage_athenad"; "uploader"] else []
    end in
  noboard <- os_getenv "NOBOARD" ;;
  let ignore2 := ignore1 ++ (if noboard is Some _ then ["pandad"] else []) in
  block <- os_getenv "BLOCK" ;;
  ret (ignore2 ++ filter (fun x => negb (String.eqb x ""))
                         (split_on ","%char (default "" block))).

(** What one turn of the loop reads from outside: the [started] flag of
    the device state that [sm.update()] delivers, and the writes that
    other programs (the UI, a remote command) made to the store while the
    manager was waiting in [sm.update()]. *)
Record TickIn := {
  started_in : bool;
  external_puts : list (string * string);
}.

Definition sm_update (i : TickIn) : M unit :=
  call Call_sm_update ;;;
  fun w => (Ok tt, with_store (fun s => foldl (fun s kv => <[kv.1 := kv.2]> s) s (external_puts i)) w).

(** Lines 322-325: the coloured line of process names. *)
Definition print_running : M unit :=
  h <- get_trace ;;
  for_ (filter (fun p => has_proc X h p = true) (registry X)) (fun p => call (Call_is_alive p)) ;;;
  emit (Log "running") ;;;
  cloudlog "running".

(** Lines 327-330: the managerState message. *)
Definition send_managerState : M unit :=
  for_ (registry X) (fun p => call (Call_get_process_state_msg p)) ;;;
  call (Call_pm_send "managerState" (registry X)).

(** Lines 332-338: [shutdown] is the local flag of the source. *)
Fixpoint check_shutdown (ps : list string) (shutdown : bool) : M bool :=
  match ps with
  | [] => ret shutdown
  | param :: ps' =>
      b <- params_get_bool param ;;
      if b then
        h <- get_trace ;;
        params_put "LastManagerExitReason" (param ++ " " ++ datetime_now X h) ;;;
        cloudlog ("Shutting down manager - " ++ param ++ " set") ;;;
        check_shutdown ps' true
      else check_shutdown ps' shutdown
  end.

Definition shutdown_params : list string := ["DoUninstall"; "DoShutdown"; "DoReboot"].

(** Lines 309-312: the bulk clears of a mode transition. *)
Definition transition_clears (started started_prev : bool) : M unit :=
  if started && negb started_prev then params_clear_all CLEAR_ON_ONROAD_TRANSITION
  else if negb started && started_prev then params_clear_all CLEAR_ON_OFFROAD_TRANSITION
  else ret tt.

(** Lines 305-338: one turn of the [while True] loop.  The result is the
    [shutdown] flag tested at line 340; [started_prev] of the next turn is
    [started_in i] (line 318). *)
Definition tick (ignore : list string) (i : TickIn) (started_prev : bool) : M bool :=
  sm_update i ;;;
  let started := started_in i in
  transition_clears started started_prev ;;;
  (* update onroad params, which drives boardd's safety setter thread *)
  when (negb (Bool.eqb started started_prev))
    (call_with_params (Call_write_onroad_params started)) ;;;
  call_with_params (Call_ensure_running started ignore) ;;;
  print_running ;;;
  (* send managerState *)
  send_managerState ;;;
  (* exit main loop when uninstall/shutdown/reboot is needed *)
  check_shutdown shutdown_params false.

(** Lines 304-341: the loop, over the prefix of the state stream that is
    known; when the prefix is used up the run is cut off. *)
Fixpoint manager_loop (ignore : list string) (inputs : list TickIn) (started_prev : bool) : M unit :=
  match inputs with
  | [] => out_of_fuel
  | i :: inputs' =>
      shutdown <- tick ignore i started_prev ;;
      if shutdown then ret tt
      else manager_loop ignore inputs' (started_in i)
  end.

Definition manager_thread (inputs : list TickIn) : M unit :=
  emit (Enter "manager_thread") ;;;
  cloudlog "bind" ;;;
  cloudlog "manager start" ;;;
  cloudlog "environ" ;;;
  ignore <- ignore_list ;;
  call_with_params (Call_write_onroad_params false) ;;;
  call_with_params (Call_ensure_running false ignore) ;;;
  manager_loop ignore inputs false.

(** ** main *)

Definition PREBUILT_FILE : string := os_path_join (BASEDIR X) "prebuilt".

(** Lines 364-373. *)
Definition terminal_action : M unit :=
  do_uninstall <- params_get_bool "DoUninstall" ;;
  if do_uninstall then
    cloudlog "uninstalling" ;;; call Call_uninstall
  else
    do_reboot <- params_get_bool "DoReboot" ;;
    if do_reboot then
      cloudlog "reboot" ;;; call Call_reboot
    else
      do_shutdown <- params_get_bool "DoShutdown" ;;
      if do_shutdown then
        cloudlog "shutdown" ;;; call Call_shutdown
      else ret tt.

(** Lines 356-362: [try: manager_thread() / except Exception: ... / finally: manager_cleanup()] *)
Definition supervised (inputs : list TickIn) : M unit :=
  try_finally
    (try_except (manager_thread inputs) is_Exception
       (fun _ => emit (Log "traceback") ;;; call Call_sentry_capture_exception))
    manager_cleanup.

Definition main (inputs : list TickIn) : M unit :=
  manager_init ;;;
  prepareonly <- os_getenv "PREPAREONLY" ;;
  if prepareonly is Some _ then ret tt
  else
    (* remove the prebuilt file to prevent boot failures *)
    h <- get_trace ;;
    when (os_path_exists X h PREBUILT_FILE) (call (Call_os_remove PREBUILT_FILE)) ;;;
    (* SystemExit on sigterm *)
    call Call_signal_SIGTERM ;;;
    supervised inputs ;;;
    terminal_action.

End Manager.

(** ** The Reconciler *)

Module Reconciler.

(** Modelled from the spec: [ensure_running] and the process wrapper
    live in [selfdrive/manager/process.py] and the descriptors in
    [process_config.py], none of them part of the sources.  Sections 3
    and 4.2 give the descriptor ([name], [run_condition], the derived
    [desired_state], [observed_state]), the two run conditions, the five
    observed states, and the rule of the Reconciler: in registry order,
    a process that should run and is neither RUNNING nor STARTING gets a
    start action, a process that should not run and is neither STOPPED
    nor STOPPING gets a stop action. *)
Inductive RunCondition := ALWAYS | ONROAD_ONLY.

Inductive ObservedState := STOPPED | STARTING | RUNNING | STOPPING | CRASHED.

Inductive OperatingMode := OFFROAD | ONROAD.

Record Descriptor := {
  name : string;
  run_condition : RunCondition;
  observed_state : ObservedState;
}.

Inductive Action := Start (p : string) | Stop (p : string).

(** Modelled from the spec: section 3, the mode is derived each tick
    from the [started] flag of the state stream. *)
Definition operating_mode (started : bool) : OperatingMode :=
  if started then ONROAD else OFFROAD.

Definition is_onroad (mode : OperatingMode) : bool :=
  match mode with ONROAD => true | OFFROAD => false end.

Definition in_ignore_set (ignore_set : list string) (p : string) : bool :=
  existsb (String.eqb p) ignore_set.

(** Modelled from the spec: section 4.2, "ALWAYS processes run unless in
    ignore_set; ONROAD_ONLY processes run iff operating_mode == ONROAD
    and not in ignore_set"; [true] is "running", [false] is "stopped". *)
Definition desired_state (rc : RunCondition) (mode : OperatingMode)
    (ignore_set : list string) (p : string) : bool :=
  match rc with
  | ALWAYS => negb (in_ignore_set ignore_set p)
  | ONROAD_ONLY => is_onroad mode && negb (in_ignore_set ignore_set p)
  end.

Definition is_up (o : ObservedState) : bool :=
  match o with RUNNING | STARTING => true | _ => false end.

Definition is_down (o : ObservedState) : bool :=
  match o with STOPPED | STOPPING => true | _ => false end.

Section Wrapper.

(** What the process wrapper makes of a process when it is asked to
    start it or to stop it (without waiting). *)
Context (start stop : ObservedState -> ObservedState).

Definition set_observed (d : Descriptor) (o : ObservedState) : Descriptor :=
  {| name := name d; run_condition := run_condition d; observed_state := o |}.

(** Modelled from the spec: section 4.2, the corrective action for one
    process, if any, and the descriptor after it. *)
Definition reconcile_one (mode : OperatingMode) (ignore_set : list string)
    (d : Descriptor) : list Action * Descriptor :=
  if desired_state (run_condition d) mode ignore_set (name d) then
    if is_up (observed_state d) then ([], d)
    else ([Start (name d)], set_observed d (start (observed_state d)))
  else
    if is_down (observed_state d) then ([], d)
    else ([Stop (name d)], set_observed d (stop (observed_state d))).

(** Modelled from the spec: section 4.2,
    [reconcile(registry, operating_mode, ignore_set)], actions issued in
    registry order.  The result is the actions issued and the registry
    as the wrapper leaves it. *)
Fixpoint reconcile (registry : list Descriptor) (mode : OperatingMode)
    (ignore_set : list string) : list Action * list Descriptor :=
  match registry with
  | [] => ([], [])
  | d :: registry' =>
      let '(a, d') := reconcile_one mode ignore_set d in
      let '(acts, rest) := reconcile registry' mode ignore_set in
      (a ++ acts, d' :: rest)
  end.

End Wrapper.

(** The desired state of every process of a registry, in order. *)
Definition desired_states (registry : list Descriptor) (started : bool)
    (ignore_set : list string) : list (string * bool) :=
  map (fun d => (name d, desired_state (run_condition d) (operating_mode started)
                           ignore_set (name d))) registry.

End Reconciler.

(** ** Observing a run *)

Global Instance ParamKeyType_eq_dec : EqDecision ParamKeyType.
Proof. solve_decision. Defined.

Global Instance exn_eq_dec : EqDecision exn.
Proof. solve_decision. Defined.

Global Instance Event_eq_dec : EqDecision Event.
Proof. solve_decision. Defined.

(** The events a computation adds to the history when run from [w]. *)
Definition events_of {A} (m : M A) (w : World) : list Event :=
  drop (length (trace w)) (trace (m w).2).

(** Every event a computation adds satisfies [P]; with [P] always true
    this says that the history only grows. *)
Definition footprint {A} (P : Event -> Prop) (m : M A) : Prop :=
  forall w, exists evs, trace (m w).2 = trace w ++ evs /\ Forall P evs.

Definition is_clear (ev : Event) : bool :=
  match ev with Params_clear_all _ => true | _ => false end.

Definition is_put (ev : Event) : bool :=
  match ev with Params_put _ _ => true | _ => false end.

Definition is_ensure_running (ev : Event) : bool :=
  match ev with Call_ensure_running _ _ => true | _ => false end.

Definition is_pm_send (ev : Event) : bool :=
  match ev with Call_pm_send _ _ => true | _ => false end.

Definition is_prepare (ev : Event) : bool :=
  match ev with Call_prepare _ => true | _ => false end.

Definition is_stop (ev : Event) : bool :=
  match ev with Call_stop _ _ => true | _ => false end.

Definition is_host_action (ev : Event) : bool :=
  match ev with Call_uninstall | Call_reboot | Call_shutdown => true | _ => false end.

(** A flag of the store, as [get_bool] reads it. *)
Definition flag (X : Ext) (s : gmap string string) (k : string) : bool :=
  decode_bool X (s !! k).

(** The value [manager_thread] writes for a set flag. *)
Definition exit_reason (param ts : string) : string := param ++ " " ++ ts.


Definition grows {A} (m : M A) : Prop := footprint (fun _ => True) m.

Definition is_enter (fn : string) (ev : Event) : bool :=
  match ev with Enter f => String.eqb f fn | _ => false end.

Definition reason_key : string := "LastManagerExitReason".

Definition is_reason_put (ev : Event) : bool :=
  match ev with Params_put k _ => String.eqb k reason_key | _ => false end.

(** What [check_shutdown] does for one set flag [r.1] at time [r.2]. *)
Definition reason_events (r : string * string) : list Event :=
  [Params_put reason_key (exit_reason r.1 r.2);
   Log ("Shutting down manager - " ++ r.1 ++ " set")].

Definition put_reasons (rs : list (string * string)) (s : gmap string string) :
    gmap string string :=
  foldl (fun s r => <[reason_key := exit_reason r.1 r.2]> s) s rs.

(** The history with [evs] added, the rest of the world as it was. *)
Definition record_all (evs : list Event) (w : World) : World :=
  {| store := store w; environ := environ w; trace := trace w ++ evs |}.

(** The entries of a table of defaults that [set_unset_params] writes
    into the store [s]: those whose key is absent when their turn comes. *)
Fixpoint unset_entries (dp : list (string * string)) (s : gmap string string) :
    list (string * string) :=
  match dp with
  | [] => []
  | kv :: dp' =>
      match s !! kv.1 with
      | None => kv :: unset_entries dp' (<[kv.1 := kv.2]> s)
      | Some _ => unset_entries dp' s
      end
  end.

Definition put_all (kvs : list (string * string)) (s : gmap string string) :
    gmap string string :=
  foldl (fun s kv => <[kv.1 := kv.2]> s) s kvs.

(** The first value a table gives for a key. *)
Fixpoint table_get (dp : list (string * string)) (k : string) : option string :=
  match dp with
  | [] => None
  | kv :: dp' => if String.eqb kv.1 k then Some kv.2 else table_get dp' k
  end.

(** Lines 305-330: a turn of the loop up to the managerState message,
    that is [tick] without the test of the shutdown flags. *)
Definition tick_body (X : Ext) (ignore : list string) (i : TickIn)
    (started_prev : bool) : M unit :=
  sm_update X i ;;;
  transition_clears X (started_in i) started_prev ;;;
  when (negb (Bool.eqb (started_in i) started_prev))
    (call_with_params X (Call_write_onroad_params (started_in i))) ;;;
  call_with_params X (Call_ensure_running (started_in i) ignore) ;;;
  print_running X ;;;
  send_managerState X.

(** Lines 30-261: [manager_init] up to the pre-import. *)
Definition init_head (X : Ext) : M unit :=
  manager_init_params X ;;; manager_init_identity X.

(** Lines 345-354: [main] up to the [try]; the result tells whether the
    [try] is reached ([false]: the early return under PREPAREONLY). *)
Definition main_head (X : Ext) : M bool :=
  manager_init X ;;;
  prepareonly <- os_getenv "PREPAREONLY" ;;
  if prepareonly is Some _ then ret false
  else
    h <- get_trace ;;
    when (os_path_exists X h (PREBUILT_FILE X)) (call X (Call_os_remove (PREBUILT_FILE X))) ;;;
    call X Call_signal_SIGTERM ;;;
    ret true.

(** Events that belong to neither the supervised block nor the dispatch
    of the terminal action. *)
Definition outside_supervision (ev : Event) : Prop :=
  is_enter "manager_thread" ev = false /\
  is_enter "manager_cleanup" ev = false /\
  is_host_action ev = false.

(** Events of the guarded thread: none belongs to the cleanup or is a
    terminal action. *)
Definition inside_thread (ev : Event) : Prop :=
  is_enter "manager_cleanup" ev = false /\ is_stop ev = false /\ is_host_action ev = false.

Definition not_cleanup (ev : Event) : Prop :=
  is_enter "manager_cleanup" ev = false /\ is_stop ev = false.

(** Lines 356-360: the [try] block with its [except Exception] handler. *)
Definition guarded_thread (X : Ext) (inputs : list TickIn) : M unit :=
  try_except (manager_thread X inputs) is_Exception
    (fun _ => emit (Log "traceback") ;;; call X Call_sentry_capture_exception).

Definition before_reconcile (ev : Event) : Prop :=
  is_ensure_running ev = false /\ is_pm_send ev = false.

Definition after_reconcile (ev : Event) : Prop :=
  is_clear ev = false /\ is_ensure_running ev = false.

(** ** Scenarios *)

(** Collaborators that only differ in the registry, in which calls
    raise and in what the legacy [SLCPriority] reads as; booleans are
    stored as "1" and "0", a float as its integer part. *)
Definition scenario_with (reg : list string) (flt : list Event -> Event -> option exn)
    (legacy_slc : Z) : Ext := {|
  registry := reg;
  has_proc := fun _ _ => true;
  fault := flt;
  helper_store := fun _ s => s;
  key_type := fun _ _ => false;
  decode_bool := fun o => match o with Some "1" => true | _ => false end;
  encode_bool := fun b => if b then "1" else "0";
  decode_int := fun _ => legacy_slc;
  encode_int := fun z => pretty z;
  decode_float := fun _ => 0%Q;
  encode_float := fun q => String.append (pretty (Qnum q / Zpos (Qden q))%Z) ".0";
  PC := true;
  is_release_branch := false;
  is_tested_branch := false;
  is_dirty := false;
  get_short_branch := "FrogPilot";
  get_version := "0.9.6";
  get_commit := "0000000";
  get_origin := "origin";
  terms_version := "2";
  training_version := "0.2.0";
  LongitudinalPersonality_standard := "standard";
  UNREGISTERED_DONGLE_ID := "UnregisteredDevice";
  register_result := fun _ => Some "0123456789abcdef";
  CRASHES_DIR := "/data/crashes";
  BASEDIR := "/data/openpilot";
  os_path_isfile := fun _ _ => false;
  os_path_exists := fun _ _ => false;
  utcnow_isoformat := fun _ => "2024-06-01T00:00:00";
  datetime_now := fun _ => "2024-06-01 00:00:00";
|}.

Definition scenario (reg : list string) (flt : list Event -> Event -> option exn) : Ext :=
  scenario_with reg flt 0.

(** Nothing raises. *)
Definition ext_quiet : Ext := scenario ["A"; "B"] (fun _ _ => None).

(** Pre-importing process A raises. *)
Definition ext_prepare_fails : Ext :=
  scenario ["A"; "B"]
    (fun _ ev => match ev with
                 | Call_prepare "A" => Some (PyException "ImportError")
                 | _ => None
                 end).

(** The Reconciler raises when the device is started. *)
Definition ext_reconcile_fails : Ext :=
  scenario ["A"; "B"]
    (fun _ ev => match ev with
                 | Call_ensure_running true _ => Some (PyException "RuntimeError")
                 | _ => None
                 end).

(** The blocking stop of process A raises (a process that cannot be
    killed). *)
Definition ext_stop_fails : Ext :=
  scenario ["A"; "B"]
    (fun _ ev => match ev with
                 | Call_stop "A" true => Some (PyException "RuntimeError")
                 | _ => None
                 end).

(** The legacy [SLCPriority] setting reads as 1. *)
Definition ext_legacy_slc : Ext := scenario_with ["A"; "B"] (fun _ _ => None) 1.

Definition world0 : World := {| store := ∅; environ := ∅; trace := [] |}.

Definition world_prepareonly : World :=
  {| store := ∅; environ := {["PREPAREONLY" := "1"]}; trace := [] |}.

Definition world_registered : World :=
  {| store := {["DongleId" := "0123456789abcdef"]}; environ := ∅; trace := [] |}.

Definition offroad_tick : TickIn := {| started_in := false; external_puts := [] |}.
Definition onroad_tick : TickIn := {| started_in := true; external_puts := [] |}.
Definition reboot_tick : TickIn :=
  {| started_in := true; external_puts := [("DoReboot", "1")] |}.
Definition reboot_and_shutdown_tick : TickIn :=
  {| started_in := true; external_puts := [("DoShutdown", "1"); ("DoReboot", "1")] |}.
Definition uninstall_and_reboot_tick : TickIn :=
  {| started_in := false; external_puts := [("DoUninstall", "1"); ("DoReboot", "1")] |}.

Definition world_custom : World :=
  {| store := {["LanguageSetting" := "main_de"; "SLCPriority1" := "3"]};
     environ := {["BLOCK" := "ui,,navd"; "NOBOARD" := "1"]};
     trace := [] |}.

(** The world a first turn of the loop leaves. *)
Definition world_after_tick (X : Ext) (i : TickIn) : World :=
  (tick X [] i false world0).2.

(** A process wrapper whose start leaves a process STARTING and whose
    non-blocking stop leaves it STOPPING. *)
Definition starting_wrapper (_ : Reconciler.ObservedState) : Reconciler.ObservedState :=
  Reconciler.STARTING.

Definition stopping_wrapper (_ : Reconciler.ObservedState) : Reconciler.ObservedState :=
  Reconciler.STOPPING.

(** The registry of the scenarios of section 8 of the spec. *)
Definition registry_AB : list Reconciler.Descriptor :=
  [ {| Reconciler.name := "A"; Reconciler.run_condition := Reconciler.ALWAYS;
       Reconciler.observed_state := Reconciler.STOPPED |};
    {| Reconciler.name := "B"; Reconciler.run_condition := Reconciler.ONROAD_ONLY;
       Reconciler.observed_state := Reconciler.CRASHED |} ].

Definition is_write_onroad (ev : Event) : bool :=
  match ev with Call_write_onroad_params _ => true | _ => false end.

Definition is_sm_update (ev : Event) : bool :=
  match ev with Call_sm_update => true | _ => false end.

(** Events of the part of a turn that follows the call of the Reconciler. *)
Definition after_reconcile_call (ev : Event) : Prop :=
  is_clear ev = false /\ is_ensure_running ev = false /\
  is_write_onroad ev = false /\ is_sm_update ev = false.

(** The bulk clears of a turn (lines 309-312). *)
Definition edge_clears (started started_prev : bool) : list Event :=
  if started && negb started_prev then [Params_clear_all CLEAR_ON_ONROAD_TRANSITION]
  else if negb started && started_prev then [Params_clear_all CLEAR_ON_OFFROAD_TRANSITION]
  else [].

(** The write of the onroad params of a turn (lines 315-316). *)
Definition edge_write (started started_prev : bool) : list Event :=
  if negb (Bool.eqb started started_prev) then [Call_write_onroad_params started] else [].

(** Bulk clears that take turns, starting with the onroad category when
    [onroad_next] holds. *)
Fixpoint alternating (onroad_next : bool) (evs : list Event) : Prop :=
  match evs with
  | [] => True
  | ev :: evs' =>
      ev = Params_clear_all (if onroad_next then CLEAR_ON_ONROAD_TRANSITION
                             else CLEAR_ON_OFFROAD_TRANSITION) /\
      alternating (negb onroad_next) evs'
  end.

(** The calls of the Reconciler a run of [manager_thread] can make: one
    before the loop, then one per turn. *)
Definition reconciler_calls (ignore : list string) (inputs : list TickIn) : list Event :=
  Call_ensure_running false ignore ::
  ((fun i => Call_ensure_running (started_in i) ignore) <$> inputs).

(** The events of a cleanup in which no [stop] raises. *)
Definition cleanup_events (X : Ext) : list Event :=
  Enter "manager_cleanup" ::
  ((fun p => Call_stop p false) <$> registry X) ++
  ((fun p => Call_stop p true) <$> registry X) ++
  [Log "everything is dead"].

(** Lines 283-285: what [manager_thread] logs before it does anything. *)
Definition thread_preamble : list Event :=
  [Enter "manager_thread"; Log "bind"; Log "manager start"; Log "environ"].

(** Lines 299-341 for a given ignore list. *)
Definition thread_from (X : Ext) (ignore : list string) (inputs : list TickIn) : M unit :=
  call_with_params X (Call_write_onroad_params false) ;;;
  call_with_params X (Call_ensure_running false ignore) ;;;
  manager_loop X ignore inputs false.

(** Lines 359-360: what the [except Exception] handler adds when the
    report to sentry goes through. *)
Definition crash_report : list Event :=
  [Log "traceback"; Call_sentry_capture_exception].

(** The value the legacy remapping writes into a priority slot for the
    source called [name]: its position in [primary_priorities]. *)
Definition slot_value (X : Ext) (name : string) : string :=
  encode_float X (inject_Z (Z.of_nat (default 0%nat (list_index primary_priorities name)))).

(** The three sources the legacy setting [slc_priority] stands for
    (line 217). *)
Definition old_priorities (slc_priority : Z) : list string :=
  dict_get priorities_mapping (slc_priority + 1) ["None"; "None"; "None"].

(** The puts of the remapping (lines 219-221), in order. *)
Definition remap_puts (X : Ext) (ps : list string) : list (string * string) :=
  match ps with
  | [p1; p2; p3] =>
      [ ("SLCPriority1", slot_value X p1); ("SLCPriority", encode_int X 0);
        ("SLCPriority2", slot_value X p2); ("SLCPriority", encode_int X 0);
        ("SLCPriority3", slot_value X p3); ("SLCPriority", encode_int X 0) ]
  | _ => []
  end.

(** [sep.join(l)] for a one-character separator. *)
Fixpoint join_with (sep : ascii) (l : list string) : string :=
  match l with
  | [] => EmptyString
  | [x] => x
  | x :: l' => String.append x (String sep (join_with sep l'))
  end.

(** The character [c] occurs in [s]. *)
Fixpoint has_char (c : ascii) (s : string) : bool :=
  match s with
  | EmptyString => false
  | String c' s' => Ascii.eqb c' c || has_char c s'
  end.

(** Lines 290-291: no dongle id, or the one of an unregistered device. *)
Definition unregistered (X : Ext) (w : World) : Prop :=
  store w !! "DongleId" = None \/ store w !! "DongleId" = Some (UNREGISTERED_DONGLE_ID X).

(** Lines 231-239: the version stamps, as key and value. *)
Definition version_stamps (X : Ext) : list (string * string) :=
  [ ("Version", get_version X);
    ("TermsVersion", terms_version X);
    ("TrainingVersion", training_version X);
    ("GitCommit", get_commit X);
    ("GitBranch", get_short_branch X);
    ("GitRemote", get_origin X);
    ("IsTestedBranch", encode_bool X (is_tested_branch X));
    ("IsReleaseBranch", encode_bool X (is_release_branch X)) ].

(** A computation that leaves [os.environ] as it is. *)
Definition environ_kept {A} (m : M A) : Prop :=
  forall w, environ (m w).2 = environ w.

(** Lines 42-46: the categories [manager_init] clears. *)
Definition cleared_at_boot (X : Ext) : list ParamKeyType :=
  [CLEAR_ON_MANAGER_START; CLEAR_ON_ONROAD_TRANSITION; CLEAR_ON_OFFROAD_TRANSITION] ++
  (if is_release_branch X then [DEVELOPMENT_ONLY] else []).

(** The store after lines 42-46. *)
Definition boot_clears (X : Ext) (s : gmap string string) : gmap string string :=
  let s3 := clear_keys X CLEAR_ON_OFFROAD_TRANSITION
              (clear_keys X CLEAR_ON_ONROAD_TRANSITION
                 (clear_keys X CLEAR_ON_MANAGER_START s)) in
  if is_release_branch X then clear_keys X DEVELOPMENT_ONLY s3 else s3.

(** The store after lines 180-181. *)
Definition record_front_lock (X : Ext) (s : gmap string string) : gmap string string :=
  if decode_bool X (s !! "RecordFrontLock")
  then <["RecordFront" := encode_bool X true]> s else s.

Definition is_register (ev : Event) : bool :=
  match ev with Call_register => true | _ => false end.

(** Lines 30-239: [manager_init] up to the call of [register]. *)
Definition init_before_register (X : Ext) : M unit :=
  manager_init_params X ;;;
  previous_speed_limit <- params_get_float X "PreviousSpeedLimit" ;;
  when (Qle_bool (50 # 1) previous_speed_limit)
    (params_put_float X "PreviousSpeedLimit" (Qdiv previous_speed_limit (100 # 1))) ;;;
  migrate_slc_priority X ;;;
  try_except (call X (Call_os_mkdir "/dev/shm"))
    (fun e => is_class "FileExistsError" e || is_class "PermissionError" e)
    (fun e => if is_class "FileExistsError" e then ret tt
              else emit (Log "WARNING: failed to make /dev/shm")) ;;;
  params_put "Version" (get_version X) ;;;
  params_put "TermsVersion" (terms_version X) ;;;
  params_put "TrainingVersion" (training_version X) ;;;
  params_put "GitCommit" (get_commit X) ;;;
  params_put "GitBranch" (get_short_branch X) ;;;
  params_put "GitRemote" (get_origin X) ;;;
  params_put_bool X "IsTestedBranch" (is_tested_branch X) ;;;
  params_put_bool X "IsReleaseBranch" (is_release_branch X).

(** Lines 243-268: [manager_init] from the test of what [register]
    returned. *)
Definition init_after_register (X : Ext) : M unit :=
  h <- get_trace ;;
  dongle_id <-
    match register_result X h with
    | Some (String c r) => ret (String c r)
    | _ =>
        serial <- params_get "HardwareSerial" ;;
        raise (PyException "Exception")
    end ;;
  os_environ_set "DONGLE_ID" dongle_id ;;;
  when (negb (is_dirty X)) (os_environ_set "CLEAN" "1") ;;;
  call X Call_sentry_init ;;;
  cloudlog "bind_global" ;;;
  manager_init_preimport X.

Definition is_mkdir (ev : Event) : bool :=
  match ev with Call_os_mkdir _ => true | _ => false end.

(** Lines 30-221: [manager_init] up to the [try] around [os.mkdir]. *)
Definition init_before_mkdir (X : Ext) : M unit :=
  manager_init_params X ;;;
  previous_speed_limit <- params_get_float X "PreviousSpeedLimit" ;;
  when (Qle_bool (50 # 1) previous_speed_limit)
    (params_put_float X "PreviousSpeedLimit" (Qdiv previous_speed_limit (100 # 1))) ;;;
  migrate_slc_priority X.

(** Lines 223-229: [try: os.mkdir("/dev/shm")] with its two handlers. *)
Definition make_shm (X : Ext) : M unit :=
  try_except (call X (Call_os_mkdir "/dev/shm"))
    (fun e => is_class "FileExistsError" e || is_class "PermissionError" e)
    (fun e => if is_class "FileExistsError" e then ret tt
              else emit (Log "WARNING: failed to make /dev/shm")).

(** Lines 233-268: [manager_init] after the first version stamp. *)
Definition init_after_version (X : Ext) : M unit :=
  params_put "TermsVersion" (terms_version X) ;;;
  params_put "TrainingVersion" (training_version X) ;;;
  params_put "GitCommit" (get_commit X) ;;;
  params_put "GitBranch" (get_short_branch X) ;;;
  params_put "GitRemote" (get_origin X) ;;;
  params_put_bool X "IsTestedBranch" (is_tested_branch X) ;;;
  params_put_bool X "IsReleaseBranch" (is_release_branch X) ;;;
  call X Call_register ;;;
  init_after_register X.

(** The events of lines 223-232 the statements below name. *)
Definition shm : Event := Call_os_mkdir "/dev/shm".

Definition shm_warning : Event := Log "WARNING: failed to make /dev/shm".

Definition version_put (X : Ext) : Event := Params_put "Version" (get_version X).

(** SIGTERM arrives while the manager waits for the device state: the
    handler of line 354 calls [sys.exit(1)]. *)
Definition ext_sigterm : Ext :=
  scenario ["A"; "B"]
    (fun _ ev => match ev with
                 | Call_sm_update => Some (SystemExit 1)
                 | _ => None
                 end).

(** [X] with another answer from [register]. *)
Definition with_register_result (r : list Event -> option string) (X : Ext) : Ext := {|
  registry := registry X;
  has_proc := has_proc X;
  fault := fault X;
  helper_store := helper_store X;
  key_type := key_type X;
  decode_bool := decode_bool X;
  encode_bool := encode_bool X;
  decode_int := decode_int X;
  encode_int := encode_int X;
  decode_float := decode_float X;
  encode_float := encode_float X;
  PC := PC X;
  is_release_branch := is_release_branch X;
  is_tested_branch := is_tested_branch X;
  is_dirty := is_dirty X;
  get_short_branch := get_short_branch X;
  get_version := get_version X;
  get_commit := get_commit X;
  get_origin := get_origin X;
  terms_version := terms_version X;
  training_version := training_version X;
  LongitudinalPersonality_standard := LongitudinalPersonality_standard X;
  UNREGISTERED_DONGLE_ID := UNREGISTERED_DONGLE_ID X;
  register_result := r;
  CRASHES_DIR := CRASHES_DIR X;
  BASEDIR := BASEDIR X;
  os_path_isfile := os_path_isfile X;
  os_path_exists := os_path_exists X;
  utcnow_isoformat := utcnow_isoformat X;
  datetime_now := datetime_now X;
|}.

(** Registration fails: [register] returns None. *)
Definition ext_unregistered : Ext := with_register_result (fun _ => None) ext_quiet.

(** [os.mkdir("/dev/shm")] raises an exception of class [cls]. *)
Definition ext_shm (cls : string) : Ext :=
  scenario ["A"; "B"]
    (fun _ ev => match ev with
                 | Call_os_mkdir _ => Some (PyException cls)
                 | _ => None
                 end).

(** The world [main] enters the supervised run with, and the world
    [manager_thread] leaves. *)
Definition world_booted (X : Ext) : World := (main_head X world0).2.

Definition world_stopped (X : Ext) (inputs : list TickIn) : World :=
  (manager_thread X inputs (world_booted X)).2.

(** * Footprints: which events a computation can add *)

Create HintDb prog discriminated.

#[global] Hint Unfold cloudlog params_put_bool params_put_int params_put_float
  when default_params set_unset_params migrate_slc_priority
  manager_init_params manager_init_identity preimport manager_init_preimport
  manager_init manager_cleanup ignore_list sm_update print_running
  send_managerState shutdown_params transition_clears tick manager_thread
  terminal_action supervised main : prog.

Section Footprints.

Context (X : Ext).
Context (P : Event -> Prop).

Lemma footprint_events {A} (m : M A) (w : World) :
  footprint P m ->
  trace (m w).2 = trace w ++ events_of m w /\ Forall P (events_of m w).
Proof.
  intros H. destruct (H w) as (evs & Ht & HP).
  unfold events_of. rewrite Ht, drop_app_length. auto.
Qed.

Lemma footprint_ret {A} (a : A) : footprint P (ret a).
Proof. intros w. exists []. simpl. rewrite app_nil_r. auto. Qed.

Lemma footprint_raise {A} (e : exn) : footprint P (@raise A e).
Proof. intros w. exists []. simpl. rewrite app_nil_r. auto. Qed.

Lemma footprint_out_of_fuel {A} : footprint P (@out_of_fuel A).
Proof. intros w. exists []. simpl. rewrite app_nil_r. auto. Qed.

Lemma footprint_silent {A} (m : M A) :
  (forall w, trace (m w).2 = trace w) -> footprint P m.
Proof. intros H w. exists []. rewrite H, app_nil_r. auto. Qed.

Lemma footprint_bind {A B} (m : M A) (f : A -> M B) :
  footprint P m -> (forall a, footprint P (f a)) -> footprint P (bind m f).
Proof.
  intros Hm Hf w. unfold bind.
  destruct (Hm w) as (e1 & Ht1 & HP1).
  destruct (m w) as [[a | e | ] w1] eqn:E; simpl in *.
  - destruct (Hf a w1) as (e2 & Ht2 & HP2).
    exists (e1 ++ e2). rewrite Ht2, Ht1, app_assoc.
    split; [done | by apply Forall_app].
  - by exists e1.
  - by exists e1.
Qed.

Lemma footprint_for_ {A} (l : list A) (body : A -> M unit) :
  (forall x, footprint P (body x)) -> footprint P (for_ l body).
Proof.
  intros Hb. induction l as [| x l IH]; simpl.
  - apply footprint_ret.
  - apply footprint_bind; auto.
Qed.

Lemma footprint_try_except {A} (body : M A) catches handler :
  footprint P body -> (forall e, footprint P (handler e)) ->
  footprint P (try_except body catches handler).
Proof.
  intros Hb Hh w. unfold try_except.
  destruct (Hb w) as (e1 & Ht1 & HP1).
  destruct (body w) as [[a | e | ] w1] eqn:E; simpl in *; try by exists e1.
  destruct (catches e); [| by exists e1].
  destruct (Hh e w1) as (e2 & Ht2 & HP2).
  exists (e1 ++ e2). rewrite Ht2, Ht1, app_assoc.
  split; [done | by apply Forall_app].
Qed.

Lemma footprint_try_finally {A} (body : M A) (fin : M unit) :
  footprint P body -> footprint P fin -> footprint P (try_finally body fin).
Proof.
  intros Hb Hf w. unfold try_finally.
  destruct (Hb w) as (e1 & Ht1 & HP1).
  destruct (body w) as [[a | e | ] w1] eqn:E; simpl in *; try by exists e1.
  all: destruct (Hf w1) as (e2 & Ht2 & HP2);
    exists (e1 ++ e2); split; [| by apply Forall_app];
    destruct (fin w1) as [[[] | e' | ] w2]; simpl in *;
    by rewrite Ht2, Ht1, app_assoc.
Qed.

Lemma footprint_emit (ev : Event) : P ev -> footprint P (emit ev).
Proof. intros H w. exists [ev]. simpl. auto. Qed.

Lemma footprint_call (ev : Event) : P ev -> footprint P (call X ev).
Proof.
  intros H w. exists [ev]. unfold call.
  destruct (fault X (trace w) ev); simpl; auto.
Qed.

Lemma footprint_call_with_params (ev : Event) :
  P ev -> footprint P (call_with_params X ev).
Proof.
  intros H w. exists [ev]. unfold call_with_params.
  destruct (fault X (trace w) ev); simpl; auto.
Qed.

Lemma footprint_params_put (k v : string) :
  P (Params_put k v) -> footprint P (params_put k v).
Proof. intros H w. exists [Params_put k v]. simpl. auto. Qed.

Lemma footprint_params_clear_all (t : ParamKeyType) :
  P (Params_clear_all t) -> footprint P (params_clear_all X t).
Proof. intros H w. exists [Params_clear_all t]. simpl. auto. Qed.

End Footprints.

Lemma footprint_weaken {A} (P Q : Event -> Prop) (m : M A) :
  (forall ev, P ev -> Q ev) -> footprint P m -> footprint Q m.
Proof.
  intros HPQ H w. destruct (H w) as (evs & Ht & HP).
  exists evs. split; [done |]. eapply Forall_impl; eauto.
Qed.

Lemma footprint_grows {A} (P : Event -> Prop) (m : M A) :
  footprint P m -> grows m.
Proof. apply footprint_weaken. done. Qed.

(** Solves [footprint P m] for a program without loops over unknown
    data other than [for_]; the events of the program must satisfy [P]
    by computation. *)
Ltac footprint_side :=
  first [ done | by (intros; simplify_eq) ].

Ltac footprint_step :=
  lazymatch goal with
  | |- footprint _ (bind _ _) => apply footprint_bind; [| intros ?]
  | |- footprint _ (ret _) => apply footprint_ret
  | |- footprint _ (raise _) => apply footprint_raise
  | |- footprint _ out_of_fuel => apply footprint_out_of_fuel
  | |- footprint _ (for_ _ _) => apply footprint_for_; intros ?
  | |- footprint _ (try_except _ _ _) => apply footprint_try_except; [| intros ?]
  | |- footprint _ (try_finally _ _) => apply footprint_try_finally
  | |- footprint _ (emit _) => apply footprint_emit; footprint_side
  | |- footprint _ (call _ _) => apply footprint_call; footprint_side
  | |- footprint _ (call_with_params _ _) => apply footprint_call_with_params; footprint_side
  | |- footprint _ (params_put _ _) => apply footprint_params_put; footprint_side
  | |- footprint _ (params_clear_all _ _) => apply footprint_params_clear_all; footprint_side
  | |- footprint _ get_trace => apply footprint_silent; footprint_side
  | |- footprint _ get_store => apply footprint_silent; footprint_side
  | |- footprint _ (params_get _) => apply footprint_silent; footprint_side
  | |- footprint _ (params_get_bool _ _) => apply footprint_silent; footprint_side
  | |- footprint _ (params_get_int _ _) => apply footprint_silent; footprint_side
  | |- footprint _ (params_get_float _ _) => apply footprint_silent; footprint_side
  | |- footprint _ (os_getenv _) => apply footprint_silent; footprint_side
  | |- footprint _ (os_environ_set _ _) => apply footprint_silent; footprint_side
  | |- footprint _ (if ?c then _ else _) => destruct c
  | |- footprint _ (match ?c with _ => _ end) => destruct c
  | |- footprint _ (fun w => (Ok tt, with_store _ w)) => apply footprint_silent; footprint_side
  end.

Ltac footprint_auto :=
  repeat first [ assumption | footprint_step | progress (autounfold with prog) | progress simpl ].

(** * Running a computation step by step *)

Ltac grows_auto := unfold grows; footprint_auto.

Ltac grows_solve := first [done | intros; grows_auto].

Lemma bind_Ok {A B} (m : M A) (f : A -> M B) w a w1 :
  m w = (Ok a, w1) -> bind m f w = f a w1.
Proof. intros H. unfold bind. by rewrite H. Qed.

Lemma bind_Raise {A B} (m : M A) (f : A -> M B) w e w1 :
  m w = (Raise e, w1) -> bind m f w = (Raise e, w1).
Proof. intros H. unfold bind. by rewrite H. Qed.

Lemma bind_Fuel {A B} (m : M A) (f : A -> M B) w w1 :
  m w = (Fuel, w1) -> bind m f w = (Fuel, w1).
Proof. intros H. unfold bind. by rewrite H. Qed.

Lemma bind_Ok_inv {A B} (m : M A) (f : A -> M B) w b w' :
  bind m f w = (Ok b, w') ->
  exists a w1, m w = (Ok a, w1) /\ f a w1 = (Ok b, w').
Proof.
  unfold bind. destruct (m w) as [[a | e | ] w1]; intros H; try discriminate.
  by exists a, w1.
Qed.

Lemma events_of_nil {A} (m : M A) w :
  trace (m w).2 = trace w -> events_of m w = [].
Proof. intros H. unfold events_of. rewrite H. apply drop_all. Qed.

Lemma events_of_trace {A} (m : M A) w :
  grows m -> trace (m w).2 = trace w ++ events_of m w.
Proof. intros H. by apply (footprint_events (fun _ => True)). Qed.

Lemma events_of_app {A} (m : M A) w evs :
  trace (m w).2 = trace w ++ evs -> events_of m w = evs.
Proof. intros H. unfold events_of. by rewrite H, drop_app_length. Qed.

Lemma events_of_bind {A B} (m : M A) (f : A -> M B) w :
  grows m -> (forall a, grows (f a)) ->
  events_of (bind m f) w =
  events_of m w ++
  match m w with
  | (Ok a, w1) => events_of (f a) w1
  | _ => []
  end.
Proof.
  intros Hm Hf. pose proof (events_of_trace m w Hm) as Ht.
  apply events_of_app. unfold bind.
  destruct (m w) as [[a | e | ] w1]; simpl in *; rewrite ?app_nil_r; try done.
  rewrite (events_of_trace (f a) w1 (Hf a)), Ht. by rewrite app_assoc.
Qed.

Lemma events_of_bind_Ok {A B} (m : M A) (f : A -> M B) w a w1 :
  grows m -> (forall a, grows (f a)) -> m w = (Ok a, w1) ->
  events_of (bind m f) w = events_of m w ++ events_of (f a) w1.
Proof. intros Hm Hf E. rewrite events_of_bind by done. by rewrite E. Qed.

Lemma footprint_filter_nil {A} (q : Event -> bool) (m : M A) w :
  footprint (fun ev => q ev = false) m -> filter q (events_of m w) = [].
Proof.
  intros H. destruct (footprint_events _ m w H) as [_ HF].
  induction HF as [| ev evs Hq _ IH]; [done |].
  rewrite filter_cons. destruct (decide (q ev)) as [Hd | _]; [| done].
  rewrite Hq in Hd. done.
Qed.

Lemma bind_assoc {A B C} (m : M A) (f : A -> M B) (g : B -> M C) w :
  bind (bind m f) g w = bind m (fun a => bind (f a) g) w.
Proof. unfold bind. by destruct (m w) as [[]]. Qed.

Lemma bind_ext {A B} (m : M A) (f g : A -> M B) w :
  (forall a w1, f a w1 = g a w1) -> bind m f w = bind m g w.
Proof. intros H. unfold bind. by destruct (m w) as [[]]. Qed.

(** * Lists *)

Lemma filter_ext_elem {A} (P Q : A -> Prop) `{!forall x, Decision (P x)}
    `{!forall x, Decision (Q x)} (l : list A) :
  (forall x, x ∈ l -> P x <-> Q x) -> filter P l = filter Q l.
Proof.
  induction l as [| x l IH]; intros Hl; [done |].
  rewrite !filter_cons. rewrite IH by (intros y Hy; apply Hl; by right).
  destruct (decide (P x)) as [HP | HP], (decide (Q x)) as [HQ | HQ]; try done.
  - destruct HQ. apply Hl; [by left | done].
  - destruct HP. apply Hl; [by left | done].
Qed.

Lemma elem_of_concat {A} (x : A) (ls : list (list A)) :
  x ∈ concat ls <-> exists l, l ∈ ls /\ x ∈ l.
Proof.
  rewrite list_elem_of_In, in_concat. split.
  - intros (l & Hl & Hx). exists l. by rewrite !list_elem_of_In.
  - intros (l & Hl & Hx). exists l. by rewrite <- !list_elem_of_In.
Qed.

Lemma filter_fmap_all {A} (q : Event -> bool) (f : A -> Event) (l : list A) :
  (forall x, q (f x) = true) -> filter q (f <$> l) = f <$> l.
Proof.
  intros H. induction l as [| x l IH]; [done |].
  rewrite fmap_cons, filter_cons_True by (by rewrite H). by rewrite IH.
Qed.

Lemma filter_fmap_none {A} (q : Event -> bool) (f : A -> Event) (l : list A) :
  (forall x, q (f x) = false) -> filter q (f <$> l) = [].
Proof.
  intros H. induction l as [| x l IH]; [done |].
  rewrite fmap_cons, filter_cons_False by (rewrite H; simpl; auto). by rewrite IH.
Qed.

(** * One turn of the loop: the mode transition *)

Section TickFacts.

Context (X : Ext).

Lemma call_with_params_events ev w :
  events_of (call_with_params X ev) w = [ev].
Proof.
  apply events_of_app. unfold call_with_params.
  by destruct (fault X (trace w) ev).
Qed.

Lemma call_events ev w : events_of (call X ev) w = [ev].
Proof.
  apply events_of_app. unfold call.
  by destruct (fault X (trace w) ev).
Qed.

(** The part of a turn that follows the transition clears. *)
Lemma tick_tail_no_clear ignore started sp :
  footprint (fun ev => is_clear ev = false)
    (when (negb (Bool.eqb started sp))
       (call_with_params X (Call_write_onroad_params started)) ;;;
     call_with_params X (Call_ensure_running started ignore) ;;;
     print_running X ;;; send_managerState X ;;;
     check_shutdown X shutdown_params false).
Proof. footprint_auto. Qed.

Lemma sm_update_Ok i w :
  fault X (trace w) Call_sm_update = None ->
  exists w1, sm_update X i w = (Ok tt, w1) /\ trace w1 = trace w ++ [Call_sm_update].
Proof.
  intros H. unfold sm_update, bind, call. rewrite H. simpl. eauto.
Qed.

Lemma transition_clears_run started sp w :
  exists w1, transition_clears X started sp w = (Ok tt, w1) /\
    trace w1 = trace w ++
      (if started && negb sp then [Params_clear_all CLEAR_ON_ONROAD_TRANSITION]
       else if negb started && sp then [Params_clear_all CLEAR_ON_OFFROAD_TRANSITION]
       else []).
Proof.
  unfold transition_clears.
  destruct (started && negb sp); [| destruct (negb started && sp)];
    simpl; eexists; (split; [reflexivity |]); simpl; by rewrite ?app_nil_r.
Qed.

(** C3: in a turn of the loop in which the device state is read, the
    bulk clears are exactly these: on a rising edge of [started] one
    clear of CLEAR_ON_ONROAD_TRANSITION and none of
    CLEAR_ON_OFFROAD_TRANSITION, on a falling edge one clear of
    CLEAR_ON_OFFROAD_TRANSITION and none of CLEAR_ON_ONROAD_TRANSITION,
    and without an edge no clear at all. *)
Theorem clears_per_tick ignore i sp w :
  fault X (trace w) Call_sm_update = None ->
  filter is_clear (events_of (tick X ignore i sp) w) =
    if started_in i && negb sp then [Params_clear_all CLEAR_ON_ONROAD_TRANSITION]
    else if negb (started_in i) && sp then [Params_clear_all CLEAR_ON_OFFROAD_TRANSITION]
    else [].
Proof.
  intros Hf. unfold tick.
  destruct (sm_update_Ok i w Hf) as (w1 & E1 & T1).
  destruct (transition_clears_run (started_in i) sp w1) as (w2 & E2 & T2).
  rewrite (events_of_bind_Ok _ _ w tt w1) by grows_solve.
  rewrite (events_of_bind_Ok _ _ w1 tt w2) by grows_solve.
  rewrite !filter_app.
  rewrite (footprint_filter_nil is_clear _ w2) by apply tick_tail_no_clear.
  rewrite (events_of_app (sm_update X i) w [Call_sm_update]) by (by rewrite E1).
  rewrite (events_of_app (transition_clears X (started_in i) sp) w1 _)
    by (rewrite E2; exact T2).
  rewrite app_nil_r.
  destruct (started_in i && negb sp); [| destruct (negb (started_in i) && sp)]; reflexivity.
Qed.

End TickFacts.

(** * One turn of the loop: the order of its effects *)

Section TickOrder.

Context (X : Ext).

Lemma tick_shape ignore i sp w :
  exists pre tail,
    events_of (tick X ignore i sp) w = pre ++ tail /\
    Forall before_reconcile pre /\
    (tail = [] \/
     exists post, tail = Call_ensure_running (started_in i) ignore :: post /\
                  Forall after_reconcile post).
Proof.
  unfold tick.
  set (A := sm_update X i).
  set (B := transition_clears X (started_in i) sp).
  set (C := when _ _).
  set (D := call_with_params X _).
  set (R := bind (print_running X) _).
  assert (HA : footprint before_reconcile A) by (subst A; unfold before_reconcile; footprint_auto).
  assert (HB : footprint before_reconcile B) by (subst B; unfold before_reconcile; footprint_auto).
  assert (HC : footprint before_reconcile C) by (subst C; unfold before_reconcile; footprint_auto).
  assert (HR : footprint after_reconcile R) by (subst R; unfold after_reconcile; footprint_auto).
  rewrite events_of_bind by (subst A B C D R; grows_solve).
  destruct (footprint_events _ A w HA) as [_ FA].
  destruct (A w) as [[[] | e | ] w1] eqn:EA;
    [| exists (events_of A w), []; rewrite !app_nil_r; auto ..].
  rewrite events_of_bind by (subst A B C D R; grows_solve).
  destruct (footprint_events _ B w1 HB) as [_ FB].
  destruct (B w1) as [[[] | e | ] w2] eqn:EB;
    [| exists (events_of A w ++ events_of B w1), []; rewrite !app_nil_r;
       split; [done | split; [by apply Forall_app | auto]] ..].
  rewrite events_of_bind by (subst A B C D R; grows_solve).
  destruct (footprint_events _ C w2 HC) as [_ FC].
  assert (FP : Forall before_reconcile (events_of A w ++ events_of B w1 ++ events_of C w2))
    by (rewrite !Forall_app; auto).
  destruct (C w2) as [[[] | e | ] w3] eqn:EC;
    [| exists (events_of A w ++ events_of B w1 ++ events_of C w2), [];
       rewrite !app_nil_r; auto ..].
  rewrite events_of_bind by (subst A B C D R; grows_solve).
  exists (events_of A w ++ events_of B w1 ++ events_of C w2).
  eexists. split; [by rewrite <- !app_assoc |]. split; [done |]. right.
  subst D. rewrite call_with_params_events. simpl.
  destruct (call_with_params X _ w3) as [[[] | e | ] w4]; eexists;
    (split; [reflexivity |]); try done.
  apply (footprint_events _ R w4 HR).
Qed.

(** C5: within one turn of the loop, every bulk clear comes before the
    call of the Reconciler ([ensure_running]), the call of the Reconciler
    comes before the managerState message is sent, and a managerState
    message is never sent in a turn unless the Reconciler was called
    earlier in that turn, with that turn's [started] and the ignore list. *)
Theorem tick_order ignore i sp w :
  let evs := events_of (tick X ignore i sp) w in
  (forall n m c s nr,
     evs !! n = Some (Params_clear_all c) ->
     evs !! m = Some (Call_ensure_running s nr) -> n < m) /\
  (forall n m s nr sv ps,
     evs !! n = Some (Call_ensure_running s nr) ->
     evs !! m = Some (Call_pm_send sv ps) -> n < m) /\
  (forall m sv ps,
     evs !! m = Some (Call_pm_send sv ps) ->
     exists n, n < m /\ evs !! n = Some (Call_ensure_running (started_in i) ignore)).
Proof.
  intros evs. subst evs.
  destruct (tick_shape ignore i sp w) as (pre & tail & -> & Hpre & Htail).
  assert (Hin_pre : forall n ev, n < length pre -> (pre ++ tail) !! n = Some ev ->
                     before_reconcile ev).
  { intros n ev Hn Hl. rewrite lookup_app_l in Hl by done.
    eapply Forall_lookup_1; eauto. }
  assert (Hpost : forall n ev, length pre < n -> (pre ++ tail) !! n = Some ev ->
                   after_reconcile ev).
  { intros n ev Hn Hl. rewrite lookup_app_r in Hl by lia.
    destruct Htail as [-> | (post & -> & Hp)]; [by rewrite lookup_nil in Hl |].
    destruct (n - length pre) as [| k] eqn:Ek; [lia |]. simpl in Hl.
    eapply Forall_lookup_1; eauto. }
  assert (Hmid : forall ev, (pre ++ tail) !! length pre = Some ev ->
                   ev = Call_ensure_running (started_in i) ignore).
  { intros ev Hl. rewrite lookup_app_r, Nat.sub_diag in Hl by lia.
    destruct Htail as [-> | (post & -> & Hp)]; simpl in Hl; congruence. }
  assert (Hens : forall m s nr, (pre ++ tail) !! m = Some (Call_ensure_running s nr) ->
                   m = length pre).
  { intros m s nr Hl. destruct (lt_eq_lt_dec m (length pre)) as [[Hlt | ->] | Hgt]; [| done |].
    - by destruct (Hin_pre _ _ Hlt Hl).
    - by destruct (Hpost _ _ Hgt Hl). }
  assert (Hsend : forall m sv ps, (pre ++ tail) !! m = Some (Call_pm_send sv ps) ->
                   length pre < m).
  { intros m sv ps Hl. destruct (lt_eq_lt_dec m (length pre)) as [[Hlt | ->] | Hgt]; [| | done].
    - by destruct (Hin_pre _ _ Hlt Hl).
    - by specialize (Hmid _ Hl). }
  split; [| split].
  - intros n m c s nr Hc He. rewrite (Hens _ _ _ He).
    destruct (lt_eq_lt_dec n (length pre)) as [[Hlt | ->] | Hgt]; [done | |].
    + by specialize (Hmid _ Hc).
    + by destruct (Hpost _ _ Hgt Hc).
  - intros n m s nr sv ps He Hs. rewrite (Hens _ _ _ He). eauto.
  - intros m sv ps Hs. exists (length pre). split; [eauto |].
    pose proof (Hsend _ _ _ Hs) as Hlt.
    rewrite lookup_app_r, Nat.sub_diag by lia.
    destruct Htail as [-> | (post & -> & Hp)]; [| done].
    rewrite lookup_app_r in Hs by lia. by rewrite lookup_nil in Hs.
Qed.
End TickOrder.

(** * The shutdown flags *)

Section Shutdown.

Context (X : Ext).

Lemma flag_insert_ne s k v p :
  p <> k -> flag X (<[k := v]> s) p = flag X s p.
Proof. intros H. unfold flag. by rewrite lookup_insert_ne. Qed.

Lemma flag_put_reasons rs s p :
  p <> reason_key -> flag X (put_reasons rs s) p = flag X s p.
Proof.
  intros H. revert s. induction rs as [| r rs IH]; intros s; simpl; [done |].
  unfold put_reasons in *. simpl. rewrite IH. by apply flag_insert_ne.
Qed.

Lemma check_shutdown_run ps sh w :
  reason_key ∉ ps ->
  exists rs w',
    check_shutdown X ps sh w = (Ok (sh || existsb (flag X (store w)) ps), w') /\
    rs.*1 = filter (fun p => flag X (store w) p = true) ps /\
    trace w' = trace w ++ concat (reason_events <$> rs) /\
    store w' = put_reasons rs (store w) /\
    environ w' = environ w /\
    Forall (fun r => exists h, r.2 = datetime_now X h) rs.
Proof.
  revert sh w. induction ps as [| p ps IH]; intros sh w Hni.
  - exists [], w. simpl. rewrite orb_false_r, app_nil_r. auto 10.
  - apply not_elem_of_cons in Hni as [Hp Hps].
    simpl. unfold bind at 1. unfold params_get_bool. fold (flag X (store w) p).
    rewrite filter_cons.
    destruct (flag X (store w) p) eqn:Ef.
    + cbn [get_trace bind params_put cloudlog emit].
      set (w1 := record _ (record _ _)).
      destruct (IH true w1 Hps) as (rs & w' & E & Hrs & Ht & Hs & He & Hts).
      exists ((p, datetime_now X (trace w)) :: rs), w'.
      rewrite E. rewrite orb_true_r. split; [done |].
      assert (Hflags : filter (fun p0 => flag X (store w1) p0 = true) ps =
                       filter (fun p0 => flag X (store w) p0 = true) ps).
      { apply filter_ext_elem. intros q Hq.
        subst w1. simpl. rewrite flag_insert_ne; [done |].
        intros ->. done. }
      rewrite Hflags in Hrs.
      destruct (decide (true = true)); [| done].
      split; [rewrite fmap_cons, Hrs; done |].
      split; [rewrite Ht; subst w1; simpl; by rewrite <- !app_assoc |].
      split; [rewrite Hs; by subst w1 |].
      split; [by rewrite He |].
      constructor; [by eexists | done].
    + destruct (IH sh w Hps) as (rs & w' & E & Hrs & Ht & Hs & He & Hts).
      exists rs, w'. rewrite E. rewrite orb_false_l.
      destruct (decide (false = true)); [done |]. auto 10.
Qed.

Lemma tick_split ignore i sp w :
  tick X ignore i sp w =
  bind (tick_body X ignore i sp) (fun _ => check_shutdown X shutdown_params false) w.
Proof.
  unfold tick, tick_body.
  repeat (rewrite bind_assoc; apply bind_ext; intros ? ?).
  reflexivity.
Qed.

Lemma tick_body_no_put ignore i sp :
  footprint (fun ev => is_put ev = false) (tick_body X ignore i sp).
Proof. unfold tick_body. footprint_auto. Qed.

Lemma reason_key_not_flag : reason_key ∉ shutdown_params.
Proof.
  unfold shutdown_params, reason_key. intros H.
  repeat (apply elem_of_cons in H as [H | H]; [discriminate |]).
  by apply elem_of_nil in H.
Qed.

Lemma tick_Ok_inv ignore i sp w b w' :
  tick X ignore i sp w = (Ok b, w') ->
  exists w1 rs,
    tick_body X ignore i sp w = (Ok tt, w1) /\
    b = existsb (flag X (store w')) shutdown_params /\
    rs.*1 = filter (fun p => flag X (store w') p = true) shutdown_params /\
    events_of (tick X ignore i sp) w =
      events_of (tick_body X ignore i sp) w ++ concat (reason_events <$> rs) /\
    store w' = put_reasons rs (store w1) /\
    environ w' = environ w1 /\
    Forall (fun r => exists h, r.2 = datetime_now X h) rs.
Proof.
  intros H. rewrite tick_split in H.
  apply bind_Ok_inv in H as ([] & w1 & E1 & E2).
  destruct (check_shutdown_run shutdown_params false w1 reason_key_not_flag)
    as (rs & w2 & E & Hrs & Ht & Hs & He & Hts).
  rewrite E in E2. simplify_eq.
  assert (Hfl : forall p, p ∈ shutdown_params ->
                  flag X (store w') p = flag X (store w1) p).
  { intros p Hp. rewrite Hs. apply flag_put_reasons.
    intros ->. by apply reason_key_not_flag. }
  exists w1, rs. split; [done |]. split.
  { simpl. rewrite !Hfl; [done | unfold shutdown_params; repeat constructor ..]. }
  split.
  { rewrite Hrs. apply filter_ext_elem. intros p Hp. by rewrite Hfl. }
  split; [| done].
  apply events_of_app. rewrite tick_split. rewrite (bind_Ok _ _ _ _ _ E1), E. simpl.
  rewrite Ht.
  pose proof (events_of_trace (tick_body X ignore i sp) w) as Hb.
  rewrite E1 in Hb. simpl in Hb. rewrite Hb by (unfold tick_body; grows_solve).
  by rewrite app_assoc.
Qed.

Lemma put_reasons_last rs r s :
  last rs = Some r -> put_reasons rs s !! reason_key = Some (exit_reason r.1 r.2).
Proof.
  revert s. induction rs as [| r1 rs IH]; intros s Hl; [done |].
  destruct rs as [| r2 rs].
  - simpl in Hl. simplify_eq. unfold put_reasons. simpl. apply lookup_insert_eq.
  - unfold put_reasons in *. simpl. apply IH. done.
Qed.

Lemma reason_puts_of_events rs :
  filter is_reason_put (concat (reason_events <$> rs)) =
  (fun r => Params_put reason_key (exit_reason r.1 r.2)) <$> rs.
Proof.
  induction rs as [| r rs IH]; [done |].
  rewrite !fmap_cons. simpl. rewrite filter_cons_True by done.
  rewrite filter_cons_False by (simpl; auto). by rewrite IH.
Qed.

Lemma tick_body_no_reason_put ignore i sp :
  footprint (fun ev => is_reason_put ev = false) (tick_body X ignore i sp).
Proof. unfold tick_body. footprint_auto. Qed.

Lemma terminal_action_events w :
  filter is_host_action (events_of (terminal_action X) w) =
  if flag X (store w) "DoUninstall" then [Call_uninstall]
  else if flag X (store w) "DoReboot" then [Call_reboot]
  else if flag X (store w) "DoShutdown" then [Call_shutdown]
  else [].
Proof.
  unfold terminal_action, bind, params_get_bool, cloudlog, emit, call, events_of, flag.
  repeat (case_match; simplify_eq; simpl);
    rewrite ?drop_app_length, ?drop_all; try done.
  all: rewrite <- ?app_assoc, ?drop_app_length; done.
Qed.

(** C4: when a turn of the loop gets to its end and one of DoUninstall,
    DoShutdown, DoReboot reads true in the store, a value made of that
    flag's name and a time stamp was written to LastManagerExitReason in
    that turn and the loop ends with that turn; when none of them reads
    true the loop goes on with the next turn. *)
Theorem shutdown_flag_ends_loop ignore i inputs sp w b w' :
  tick X ignore i sp w = (Ok b, w') ->
  (forall p, p ∈ shutdown_params -> flag X (store w') p = true ->
     exists h, Params_put reason_key (exit_reason p (datetime_now X h))
                 ∈ events_of (tick X ignore i sp) w) /\
  ((exists p, p ∈ shutdown_params /\ flag X (store w') p = true) ->
     manager_loop X ignore (i :: inputs) sp w = (Ok tt, w')) /\
  ((forall p, p ∈ shutdown_params -> flag X (store w') p = false) ->
     manager_loop X ignore (i :: inputs) sp w =
     manager_loop X ignore inputs (started_in i) w').
Proof.
  intros H. destruct (tick_Ok_inv _ _ _ _ _ _ H) as (w1 & rs & E1 & Hb & Hrs & Hev & Hs & He & Hts).
  split; [| split].
  - intros p Hp Hf.
    assert (Hin : p ∈ rs.*1) by (rewrite Hrs; by apply list_elem_of_filter).
    apply list_elem_of_fmap in Hin as ([p' ts] & -> & Hin).
    rewrite Forall_forall in Hts. destruct (Hts _ Hin) as (h & Hh). simpl in Hh.
    exists h. rewrite Hev. apply elem_of_app. right.
    apply elem_of_concat. exists (reason_events (p', ts)).
    split; [by apply list_elem_of_fmap_2 | subst ts; by left].
  - intros (p & Hp & Hf). simpl. rewrite (bind_Ok _ _ _ _ _ H).
    assert (b = true) as ->; [| done].
    rewrite Hb. apply existsb_exists. exists p. split; [by apply list_elem_of_In | done].
  - intros Hall. simpl. rewrite (bind_Ok _ _ _ _ _ H).
    assert (b = false) as ->; [| done].
    rewrite Hb. apply not_true_iff_false. intros Ht.
    apply existsb_exists in Ht as (p & Hp & Hf).
    rewrite Hall in Hf; [done | by apply list_elem_of_In].
Qed.

(** C10: LastManagerExitReason is written once for every set flag, in
    the order DoUninstall, DoShutdown, DoReboot, so that its final value
    names the last set flag in that order (DoReboot when DoShutdown and
    DoReboot are set); with DoUninstall and DoReboot set it names
    DoReboot although the terminal action then performed is uninstall. *)
Theorem exit_reason_names_last_flag ignore i sp w b w' :
  tick X ignore i sp w = (Ok b, w') ->
  exists rs,
    rs.*1 = filter (fun p => flag X (store w') p = true) shutdown_params /\
    filter is_reason_put (events_of (tick X ignore i sp) w) =
      (fun r => Params_put reason_key (exit_reason r.1 r.2)) <$> rs /\
    (forall r, last rs = Some r ->
       store w' !! reason_key = Some (exit_reason r.1 r.2)) /\
    (flag X (store w') "DoShutdown" = true -> flag X (store w') "DoReboot" = true ->
       last rs.*1 = Some "DoReboot") /\
    (forall w2, store w2 = store w' ->
       flag X (store w') "DoUninstall" = true -> flag X (store w') "DoReboot" = true ->
       last rs.*1 = Some "DoReboot" /\
       filter is_host_action (events_of (terminal_action X) w2) = [Call_uninstall]).
Proof.
  intros H. destruct (tick_Ok_inv _ _ _ _ _ _ H) as (w1 & rs & E1 & Hb & Hrs & Hev & Hs & He & Hts).
  exists rs. split; [done |]. split; [| split; [| split]].
  - rewrite Hev, filter_app, reason_puts_of_events.
    by rewrite (footprint_filter_nil is_reason_put _ w (tick_body_no_reason_put ignore i sp)).
  - intros r Hl. rewrite Hs. by apply put_reasons_last.
  - intros H1 H2. rewrite Hrs. unfold shutdown_params.
    rewrite !filter_cons, filter_nil, H1, H2.
    repeat case_decide; done.
  - intros w2 Hw2 H1 H2. split.
    + rewrite Hrs. unfold shutdown_params.
      rewrite !filter_cons, filter_nil, H1, H2.
      repeat case_decide; done.
    + rewrite terminal_action_events, Hw2, H1. done.
Qed.
End Shutdown.

(** * manager_init: the defaults *)

Section Defaults.

Context (X : Ext).

Lemma record_all_nil w : record_all [] w = w.
Proof. destruct w. unfold record_all. simpl. by rewrite app_nil_r. Qed.

Lemma set_unset_params_run dp w :
  set_unset_params dp w =
  (Ok tt, record_all ((fun kv => Params_put kv.1 kv.2) <$> unset_entries dp (store w))
            (with_store (put_all (unset_entries dp (store w))) w)).
Proof.
  unfold set_unset_params. revert w. induction dp as [| kv dp IH]; intros w.
  - simpl. by rewrite record_all_nil; destruct w.
  - simpl. unfold bind at 1. unfold bind at 1. unfold params_get. simpl.
    destruct (store w !! kv.1) eqn:E; simpl.
    + rewrite IH. done.
    + rewrite IH. simpl. f_equal. unfold record_all, with_store, record. simpl.
      f_equal. by rewrite <- app_assoc.
Qed.

Lemma put_all_keeps kvs s k v :
  s !! k = Some v -> (forall kv, kv ∈ kvs -> kv.1 <> k) -> put_all kvs s !! k = Some v.
Proof.
  revert s. induction kvs as [| kv kvs IH]; intros s Hs Hne; [done |].
  unfold put_all in *. simpl. apply IH.
  - rewrite lookup_insert_ne; [done |]. apply Hne. by left.
  - intros kv' Hin. apply Hne. by right.
Qed.

Lemma unset_entries_absent dp s kv :
  kv ∈ unset_entries dp s -> s !! kv.1 = None /\ kv ∈ dp.
Proof.
  revert s. induction dp as [| kv0 dp IH]; intros s Hin; simpl in Hin.
  - by apply elem_of_nil in Hin.
  - destruct (s !! kv0.1) eqn:E.
    + destruct (IH _ Hin). split; [done | by right].
    + apply elem_of_cons in Hin as [-> | Hin]; [split; [done | by left] |].
      destruct (IH _ Hin) as [Hn Hd]. split; [| by right].
      destruct (decide (kv0.1 = kv.1)) as [Heq | Hne].
      * rewrite Heq, lookup_insert_eq in Hn. done.
      * by rewrite lookup_insert_ne in Hn.
Qed.

Lemma put_all_unset dp s k :
  put_all (unset_entries dp s) s !! k =
  match s !! k with Some v => Some v | None => table_get dp k end.
Proof.
  revert s. induction dp as [| kv dp IH]; intros s; simpl.
  - by destruct (s !! k).
  - destruct (s !! kv.1) eqn:E.
    + rewrite IH. destruct (s !! k) eqn:Ek; [done |].
      destruct (String.eqb_spec kv.1 k) as [Heq | Hne]; [congruence | done].
    + unfold put_all in *. simpl. rewrite IH.
      destruct (String.eqb_spec kv.1 k) as [Heq | Hne].
      * subst k. by rewrite lookup_insert_eq, E.
      * by rewrite lookup_insert_ne.
Qed.

(** C9: the default-setting step of [manager_init] never overwrites:
    a key that holds a value when the step runs holds the same value
    after it, every value the step writes is the table's default for a
    key that was absent, and an absent key ends with the first default
    the table gives for it. *)
Theorem defaults_keep_existing dp w :
  exists w',
    set_unset_params dp w = (Ok tt, w') /\
    (forall k v, store w !! k = Some v -> store w' !! k = Some v) /\
    (forall k v, Params_put k v ∈ events_of (set_unset_params dp) w ->
       store w !! k = None /\ (k, v) ∈ dp) /\
    (forall k, store w !! k = None -> store w' !! k = table_get dp k).
Proof.
  eexists. split; [apply set_unset_params_run |]. simpl.
  split; [| split].
  - intros k v H. by rewrite put_all_unset, H.
  - intros k v Hin.
    erewrite events_of_app in Hin by (rewrite set_unset_params_run; reflexivity).
    apply list_elem_of_fmap in Hin as ([k' v'] & [= -> ->] & Hin).
    by apply unset_entries_absent in Hin.
  - intros k H. by rewrite put_all_unset, H.
Qed.

End Defaults.

(** * manager_init: the pre-import *)

Section Calls.

Context (X : Ext).

Lemma record_all_record ev evs w :
  record_all evs (record ev w) = record_all (ev :: evs) w.
Proof. unfold record_all, record. simpl. by rewrite <- app_assoc. Qed.

(** A loop of calls either makes them all, or stops at the first one
    that raises. *)
Lemma for_call_cases {A} (mk : A -> Event) (l : list A) (w : World) :
  (for_ l (fun p => call X (mk p)) w = (Ok tt, record_all (mk <$> l) w) /\
   forall j p, l !! j = Some p ->
     fault X (trace w ++ (mk <$> take j l)) (mk p) = None)
  \/
  (exists j p e,
     l !! j = Some p /\
     fault X (trace w ++ (mk <$> take j l)) (mk p) = Some e /\
     (forall j' p', j' < j -> l !! j' = Some p' ->
        fault X (trace w ++ (mk <$> take j' l)) (mk p') = None) /\
     for_ l (fun p => call X (mk p)) w = (Raise e, record_all (mk <$> take (S j) l) w)).
Proof.
  revert w. induction l as [| x l IH]; intros w.
  - left. split; [simpl; by rewrite record_all_nil |].
    intros j p Hl. by rewrite lookup_nil in Hl.
  - simpl for_.
    destruct (fault X (trace w) (mk x)) as [e |] eqn:Ef.
    + assert (Ec : call X (mk x) w = (Raise e, record (mk x) w))
        by (unfold call; by rewrite Ef).
      right. exists 0, x, e. rewrite (bind_Raise _ _ _ _ _ Ec). simpl. rewrite app_nil_r.
      split; [done |]. split; [done |]. split; [intros; lia | done].
    + assert (Ec : call X (mk x) w = (Ok tt, record (mk x) w))
        by (unfold call; by rewrite Ef).
      rewrite (bind_Ok _ _ _ _ _ Ec).
      destruct (IH (record (mk x) w)) as [[E Hn] | (j & p & e & Hl & He & Hn & E)].
      * left. rewrite E, record_all_record. split; [done |].
        intros [| j] p Hl; simpl in *.
        -- simplify_eq. by rewrite app_nil_r.
        -- specialize (Hn j p Hl). by rewrite <- app_assoc in Hn.
      * right. exists (S j), p, e. rewrite E, record_all_record.
        split; [done |]. simpl in He. rewrite <- app_assoc in He.
        split; [done |]. split; [| done].
        intros [| j'] p' Hlt Hl'; simpl in *.
        -- simplify_eq. by rewrite app_nil_r.
        -- specialize (Hn j' p' ltac:(lia) Hl'). by rewrite <- app_assoc in Hn.
Qed.

Lemma for_call_Ok {A} (mk : A -> Event) (l : list A) (w : World) :
  (forall h p, fault X h (mk p) = None) ->
  for_ l (fun p => call X (mk p)) w = (Ok tt, record_all (mk <$> l) w).
Proof.
  intros H. destruct (for_call_cases mk l w) as [[E _] | (j & p & e & _ & He & _)]; [done |].
  by rewrite H in He.
Qed.

Lemma events_of_ext {A} (m m' : M A) w : m w = m' w -> events_of m w = events_of m' w.
Proof. intros H. unfold events_of. by rewrite H. Qed.

Lemma manager_init_split w :
  manager_init X w = bind (init_head X) (fun _ => manager_init_preimport X) w.
Proof. unfold manager_init, init_head. by rewrite bind_assoc. Qed.

Lemma init_head_no_prepare : footprint (fun ev => is_prepare ev = false) (init_head X).
Proof. unfold init_head. footprint_auto. Qed.

Lemma init_head_grows : grows (init_head X).
Proof. unfold init_head. grows_auto. Qed.

(** The pre-import followed by [set_model], from the world [w1] in
    which line 263 is reached. *)
Lemma manager_init_preimport_cases w1 :
  (exists r w2,
     manager_init_preimport X w1 = (r, w2) /\
     events_of (manager_init_preimport X) w1 =
       (Call_prepare <$> registry X) ++ [Call_set_model] /\
     forall j p, registry X !! j = Some p ->
       fault X (trace w1 ++ (Call_prepare <$> take j (registry X))) (Call_prepare p) = None)
  \/
  (exists j p e w2,
     registry X !! j = Some p /\
     fault X (trace w1 ++ (Call_prepare <$> take j (registry X))) (Call_prepare p) = Some e /\
     (forall j' p', j' < j -> registry X !! j' = Some p' ->
        fault X (trace w1 ++ (Call_prepare <$> take j' (registry X))) (Call_prepare p') = None) /\
     manager_init_preimport X w1 = (Raise e, w2) /\
     events_of (manager_init_preimport X) w1 = Call_prepare <$> take (S j) (registry X)).
Proof.
  unfold manager_init_preimport, preimport.
  destruct (for_call_cases Call_prepare (registry X) w1)
    as [[E Hn] | (j & p & e & Hl & He & Hn & E)].
  - left. rewrite (bind_Ok _ _ _ _ _ E).
    destruct (call_with_params X Call_set_model _) as [r w2] eqn:Es.
    exists r, w2. split; [done |]. split; [| done].
    apply events_of_app. rewrite (bind_Ok _ _ _ _ _ E), Es.
    unfold call_with_params in Es. simpl in Es.
    destruct (fault X _ Call_set_model); simplify_eq; simpl; by rewrite app_assoc.
  - right. exists j, p, e. eexists. rewrite (bind_Raise _ _ _ _ _ E).
    split; [done |]. split; [done |]. split; [done |]. split; [done |].
    apply events_of_app. by rewrite (bind_Raise _ _ _ _ _ E).
Qed.

(** C1 (as the code has it): [manager_init] pre-imports the processes
    in registry order with no exception handler around [prepare()].
    When [manager_init] completes, every registered process was
    pre-imported exactly once, in registry order; when a [prepare()]
    raises, that exception is the outcome of [manager_init] and nothing
    follows the failed call: no further pre-import, no [set_model], no
    log line. *)
Theorem preimport_not_guarded w :
  let evs := events_of (manager_init X) w in
  ((manager_init X w).1 = Ok tt ->
     filter is_prepare evs = Call_prepare <$> registry X) /\
  (forall n p e,
     evs !! n = Some (Call_prepare p) ->
     fault X (trace w ++ take n evs) (Call_prepare p) = Some e ->
     (manager_init X w).1 = Raise e /\ length evs = S n).
Proof.
  intros evs. subst evs.
  rewrite (events_of_ext _ _ w (manager_init_split w)), manager_init_split.
  rewrite events_of_bind by (first [apply init_head_grows | intros; grows_auto]).
  pose proof (footprint_events _ (init_head X) w init_head_no_prepare) as [Ht Hh].
  assert (Hnot : forall n p, n < length (events_of (init_head X) w) ->
                   events_of (init_head X) w !! n = Some (Call_prepare p) -> False).
  { intros n p _ Hl. eapply Forall_lookup_1 in Hh; [| exact Hl]. done. }
  unfold bind at 1 2.
  destruct (init_head X w) as [[[] | e0 | ] w1] eqn:Eh; simpl in Ht.
  2,3: rewrite app_nil_r; split; [done |];
       intros n p e Hl _; exfalso; eapply Hnot; [by eapply lookup_lt_Some | done].
  rewrite filter_app, (footprint_filter_nil is_prepare _ w init_head_no_prepare), app_nil_l.
  destruct (manager_init_preimport_cases w1)
    as [(r & w2 & E & Hev & Hn) | (j & p0 & e0 & w2 & Hl0 & He0 & Hn & E & Hev)];
    rewrite E, Hev; simpl.
  - split.
    + intros _. rewrite filter_app, filter_fmap_all by done. by rewrite app_nil_r.
    + intros n p e Hl Hf. exfalso.
      destruct (decide (n < length (events_of (init_head X) w))) as [Hlt | Hge].
      { rewrite lookup_app_l in Hl by done. eauto. }
      rewrite lookup_app_r in Hl by lia.
      rewrite take_app_ge in Hf by lia.
      set (k := n - length (events_of (init_head X) w)) in *.
      destruct (decide (k < length (registry X))) as [Hk | Hk].
      * rewrite lookup_app_l in Hl by (by rewrite length_fmap).
        rewrite list_lookup_fmap in Hl.
        destruct (registry X !! k) as [p' |] eqn:El; simpl in Hl; simplify_eq.
        specialize (Hn k p El).
        rewrite take_app_le in Hf by (rewrite length_fmap; lia).
        rewrite <- fmap_take, app_assoc, <- Ht in Hf. congruence.
      * rewrite lookup_app_r in Hl by (rewrite length_fmap; lia).
        destruct (k - length (Call_prepare <$> registry X)); simpl in Hl; simplify_eq.
  - split; [done |].
    intros n p e Hl Hf.
    destruct (decide (n < length (events_of (init_head X) w))) as [Hlt | Hge].
    { rewrite lookup_app_l in Hl by done. exfalso. eauto. }
    rewrite lookup_app_r in Hl by lia.
    rewrite take_app_ge in Hf by lia.
    set (k := n - length (events_of (init_head X) w)) in *.
    assert (Hnk : n = length (events_of (init_head X) w) + k) by (subst k; lia).
    clearbody k.
    rewrite list_lookup_fmap in Hl.
    destruct (take (S j) (registry X) !! k) as [p' |] eqn:El; simpl in Hl; simplify_eq.
    apply lookup_take_Some in El as [El Hk].
    rewrite <- fmap_take, take_take in Hf.
    replace (k `min` S j) with k in Hf by (clear -Hk; lia).
    rewrite app_assoc, <- Ht in Hf.
    destruct (decide (k = j)) as [-> | Hne].
    + split; [congruence |].
      rewrite length_app, length_fmap, length_take.
      apply lookup_lt_Some in Hl0. lia.
    + rewrite (Hn k p ltac:(lia) El) in Hf. done.
Qed.

End Calls.

(** * The lifecycle: cleanup and terminal action *)

Section Lifecycle.

Context (X : Ext).

Lemma main_split inputs w :
  main X inputs w =
  bind (main_head X)
    (fun go => if go : bool then supervised X inputs ;;; terminal_action X else ret tt) w.
Proof.
  unfold main, main_head.
  rewrite bind_assoc. apply bind_ext. intros _ w1.
  rewrite bind_assoc. apply bind_ext. intros [v |] w2; [done |].
  rewrite bind_assoc. apply bind_ext. intros h w3.
  rewrite bind_assoc. apply bind_ext. intros _ w4.
  rewrite bind_assoc. apply bind_ext. intros _ w5.
  done.
Qed.

Lemma main_head_outside : footprint outside_supervision (main_head X).
Proof. unfold main_head, outside_supervision. footprint_auto. Qed.

Lemma footprint_manager_loop (P : Event -> Prop) ignore inputs sp :
  (forall i sp', footprint P (tick X ignore i sp')) ->
  footprint P (manager_loop X ignore inputs sp).
Proof.
  intros Ht. revert sp. induction inputs as [| i inputs IH]; intros sp; simpl.
  - apply footprint_out_of_fuel.
  - apply footprint_bind; [apply Ht |]. intros [|]; [apply footprint_ret | apply IH].
Qed.

Lemma guarded_thread_inside inputs : footprint inside_thread (guarded_thread X inputs).
Proof.
  unfold guarded_thread, manager_thread, inside_thread.
  apply footprint_try_except; [| intros ?; footprint_auto].
  repeat (apply footprint_bind; [footprint_auto | intros ?]).
  apply footprint_manager_loop. intros i sp. footprint_auto.
Qed.

Lemma terminal_action_grows : grows (terminal_action X).
Proof. grows_auto. Qed.

Lemma manager_cleanup_grows : grows (manager_cleanup X).
Proof. grows_auto. Qed.

Lemma manager_cleanup_entered w :
  filter (is_enter "manager_cleanup") (events_of (manager_cleanup X) w) =
  [Enter "manager_cleanup"].
Proof.
  unfold manager_cleanup.
  rewrite (events_of_bind_Ok _ _ w tt (record (Enter "manager_cleanup") w))
    by first [done | grows_solve].
  rewrite filter_app.
  rewrite (events_of_app (emit _) w [Enter "manager_cleanup"]) by done.
  rewrite (footprint_filter_nil (is_enter "manager_cleanup")) by footprint_auto.
  done.
Qed.

Lemma manager_cleanup_no_host w :
  filter is_host_action (events_of (manager_cleanup X) w) = [].
Proof. apply footprint_filter_nil. footprint_auto. Qed.

(** The two passes of [manager_cleanup] when no [stop] raises. *)
Lemma manager_cleanup_passes w :
  (forall h p b, fault X h (Call_stop p b) = None) ->
  manager_cleanup X w =
  (Ok tt, record_all (Enter "manager_cleanup" ::
                      ((fun p => Call_stop p false) <$> registry X) ++
                      ((fun p => Call_stop p true) <$> registry X) ++
                      [Log "everything is dead"]) w).
Proof.
  intros H. unfold manager_cleanup, bind at 1, emit.
  rewrite (bind_Ok _ _ _ _ _ (for_call_Ok X (fun p => Call_stop p false) _ _
                               (fun h p => H h p false))).
  rewrite (bind_Ok _ _ _ _ _ (for_call_Ok X (fun p => Call_stop p true) _ _
                               (fun h p => H h p true))).
  unfold cloudlog, emit, record_all, record. simpl. f_equal. f_equal.
  by rewrite <- !app_assoc.
Qed.

Lemma manager_cleanup_not_Fuel w : (manager_cleanup X w).1 <> Fuel.
Proof.
  unfold manager_cleanup, bind at 1, emit.
  destruct (for_call_cases X (fun p => Call_stop p false) (registry X)
              (record (Enter "manager_cleanup") w))
    as [[E _] | (j & p & e & _ & _ & _ & E)];
    [rewrite (bind_Ok _ _ _ _ _ E) | by rewrite (bind_Raise _ _ _ _ _ E)].
  match goal with |- context [ bind _ _ ?w1 ] =>
    destruct (for_call_cases X (fun p => Call_stop p true) (registry X) w1)
      as [[E' _] | (j & p & e & _ & _ & _ & E')]
  end;
    [by rewrite (bind_Ok _ _ _ _ _ E') | by rewrite (bind_Raise _ _ _ _ _ E')].
Qed.

(** The supervised block: the guarded thread, then the cleanup unless
    the run is cut off. *)
Lemma supervised_run inputs w :
  match guarded_thread X inputs w with
  | (Fuel, w1) =>
      supervised X inputs w = (Fuel, w1) /\
      events_of (supervised X inputs) w = events_of (guarded_thread X inputs) w
  | (_, w1) =>
      events_of (supervised X inputs) w =
        events_of (guarded_thread X inputs) w ++ events_of (manager_cleanup X) w1 /\
      (supervised X inputs w).1 <> Fuel
  end.
Proof.
  unfold supervised. fold (guarded_thread X inputs). unfold try_finally.
  pose proof (events_of_trace _ w (footprint_grows _ _ (guarded_thread_inside inputs))) as Hg.
  destruct (guarded_thread X inputs w) as [[[] | e | ] w1] eqn:Eg; simpl in Hg.
  3: { split; [done |]. unfold events_of. by rewrite Eg. }
  all: pose proof (events_of_trace _ w1 manager_cleanup_grows) as Hc.
  all: pose proof (manager_cleanup_not_Fuel w1) as Hne.
  all: destruct (manager_cleanup X w1) as [[[] | e' | ] w2] eqn:Ec; simpl in *; try done.
  all: split; [apply events_of_app |]; cbv beta; rewrite ?Eg; cbv beta iota;
    rewrite ?Ec; simpl; try done.
  all: by rewrite Hc, Hg, app_assoc.
Qed.

Lemma supervised_grows inputs : grows (supervised X inputs).
Proof.
  unfold supervised. apply footprint_try_finally.
  - apply (footprint_grows _ _ (guarded_thread_inside inputs)).
  - apply manager_cleanup_grows.
Qed.

Lemma main_head_not_cleanup : footprint not_cleanup (main_head X).
Proof. unfold main_head, not_cleanup. footprint_auto. Qed.

Lemma terminal_action_not_cleanup : footprint not_cleanup (terminal_action X).
Proof. unfold not_cleanup. footprint_auto. Qed.

(** The events of [main]: those of its head, then, unless [main]
    returns early or its head raises, those of the supervised block and
    of the dispatch of the terminal action. *)
Lemma main_events inputs w :
  events_of (main X inputs) w =
  events_of (main_head X) w ++
  match main_head X w with
  | (Ok true, w1) =>
      events_of (supervised X inputs) w1 ++
      match supervised X inputs w1 with
      | (Ok _, w2) => events_of (terminal_action X) w2
      | _ => []
      end
  | _ => []
  end.
Proof.
  rewrite (events_of_ext _ _ w (main_split inputs w)).
  rewrite events_of_bind.
  - f_equal. destruct (main_head X w) as [[[|] | e | ] w1]; try done;
      [| by apply events_of_nil].
    rewrite events_of_bind; [done | apply supervised_grows | intros; apply terminal_action_grows].
  - apply (footprint_grows _ _ main_head_outside).
  - intros [|]; [| grows_auto].
    apply footprint_bind; [apply supervised_grows | intros; apply terminal_action_grows].
Qed.

Lemma main_result inputs w w1 :
  main_head X w = (Ok true, w1) ->
  main X inputs w = bind (supervised X inputs) (fun _ => terminal_action X) w1.
Proof. intros H. by rewrite main_split, (bind_Ok _ _ _ _ _ H). Qed.


Lemma terminal_action_idle w :
  flag X (store w) "DoUninstall" = false ->
  flag X (store w) "DoReboot" = false ->
  flag X (store w) "DoShutdown" = false ->
  terminal_action X w = (Ok tt, w).
Proof.
  unfold flag. intros H1 H2 H3.
  unfold terminal_action, bind, params_get_bool. by rewrite H1, H2, H3.
Qed.


End Lifecycle.

(** * The Reconciler: idempotence *)

Section ReconcilerFacts.

Import Reconciler.

Lemma in_ignore_set_spec ignore_set p :
  in_ignore_set ignore_set p = true <-> p ∈ ignore_set.
Proof.
  unfold in_ignore_set. rewrite existsb_exists. split.
  - intros (q & Hq & He). apply String.eqb_eq in He. subst q. by apply list_elem_of_In.
  - intros H. exists p. split; [by apply list_elem_of_In | apply String.eqb_refl].
Qed.

Lemma in_ignore_set_false ignore_set p :
  in_ignore_set ignore_set p = false <-> p ∉ ignore_set.
Proof.
  rewrite <- in_ignore_set_spec. by destruct (in_ignore_set ignore_set p).
Qed.

Section Wrapper.

Context (start stop : ObservedState -> ObservedState).
Hypothesis start_up : forall o, is_up (start o) = true.
Hypothesis stop_down : forall o, is_down (stop o) = true.

Lemma reconcile_one_settled mode ignore_set d :
  reconcile_one start stop mode ignore_set (reconcile_one start stop mode ignore_set d).2 =
  ([], (reconcile_one start stop mode ignore_set d).2).
Proof.
  unfold reconcile_one.
  destruct (desired_state (run_condition d) mode ignore_set (name d)) eqn:Ed.
  - destruct (is_up (observed_state d)) eqn:Eo; simpl; rewrite Ed.
    + by rewrite Eo.
    + by rewrite start_up.
  - destruct (is_down (observed_state d)) eqn:Eo; simpl; rewrite Ed.
    + by rewrite Eo.
    + by rewrite stop_down.
Qed.

Lemma reconcile_cons d registry mode ignore_set :
  reconcile start stop (d :: registry) mode ignore_set =
  ((reconcile_one start stop mode ignore_set d).1 ++
     (reconcile start stop registry mode ignore_set).1,
   (reconcile_one start stop mode ignore_set d).2 ::
     (reconcile start stop registry mode ignore_set).2).
Proof.
  simpl. destruct (reconcile_one _ _ _ _ d), (reconcile _ _ registry _ _). done.
Qed.


End Wrapper.

End ReconcilerFacts.

(** * The Reconciler: desired state in every turn *)

Section IgnoreSet.

Context (X : Ext).

(** The ignore list only depends on the store and on the environment. *)
Lemma ignore_list_run w :
  exists ig, forall w',
    store w' = store w -> environ w' = environ w -> ignore_list X w' = (Ok ig, w').
Proof.
  eexists. intros w' Hs He.
  unfold ignore_list, bind, params_get, os_getenv, ret. rewrite Hs, He. reflexivity.
Qed.

Lemma tick_reconciler_arguments ignore i sp :
  footprint (fun ev => forall s nr, ev = Call_ensure_running s nr ->
                         s = started_in i /\ nr = ignore)
    (tick X ignore i sp).
Proof. footprint_auto. Qed.

Lemma manager_loop_ignore ignore inputs sp :
  footprint (fun ev => forall s nr, ev = Call_ensure_running s nr -> nr = ignore)
    (manager_loop X ignore inputs sp).
Proof.
  apply footprint_manager_loop. intros i sp'.
  eapply footprint_weaken; [| apply (tick_reconciler_arguments ignore i sp')].
  intros ev H s nr Hev. by destruct (H s nr Hev).
Qed.

Lemma manager_thread_ignore inputs w s nr :
  Call_ensure_running s nr ∈ events_of (manager_thread X inputs) w ->
  (ignore_list X w).1 = Ok nr.
Proof.
  destruct (ignore_list_run w) as (ig & Hig). rewrite (Hig w) by done. simpl.
  intros Hin. f_equal.
  assert (Hf : footprint (fun ev => forall s nr, ev = Call_ensure_running s nr -> nr = ig)
                 (call_with_params X (Call_write_onroad_params false) ;;;
                  call_with_params X (Call_ensure_running false ig) ;;;
                  manager_loop X ig inputs false)).
  { repeat (apply footprint_bind; [footprint_auto | intros ?]).
    apply manager_loop_ignore. }
  unfold manager_thread, cloudlog in Hin.
  set (w4 := record (Log "environ") (record (Log "manager start")
               (record (Log "bind") (record (Enter "manager_thread") w)))).
  assert (E : ignore_list X w4 = (Ok ig, w4)) by (by apply Hig).
  assert (Hev : exists pre, events_of (manager_thread X inputs) w =
            pre ++ events_of (call_with_params X (Call_write_onroad_params false) ;;;
                              call_with_params X (Call_ensure_running false ig) ;;;
                              manager_loop X ig inputs false) w4 /\
            Forall (fun ev => is_ensure_running ev = false) pre).
  { exists [Enter "manager_thread"; Log "bind"; Log "manager start"; Log "environ"].
    split; [| repeat constructor].
    pose proof (events_of_trace _ w4 (footprint_grows _ _ Hf)) as Ht.
    apply events_of_app.
    unfold manager_thread, cloudlog. unfold bind at 1 2 3 4 5. unfold emit at 1 2 3 4.
    fold w4. rewrite E.
    rewrite Ht. subst w4. simpl. by rewrite <- !app_assoc. }
  destruct Hev as (pre & Hev & Hpre). unfold manager_thread, cloudlog in Hev.
  rewrite Hev in Hin. apply elem_of_app in Hin as [Hin | Hin].
  - rewrite Forall_forall in Hpre. by specialize (Hpre _ Hin).
  - destruct (footprint_events _ _ w4 Hf) as [_ HF].
    rewrite Forall_forall in HF. symmetry. by eapply HF.
Qed.

Import Reconciler.

(** C6: in every turn of the loop the Reconciler is called with that
    turn's [started] and with the ignore list computed once before the
    loop; for that mode and ignore set an ALWAYS process is to run iff
    its name is not in the ignore set, an ONROAD_ONLY process is to run
    iff [started] holds and its name is not in the ignore set, and a
    process in the ignore set is never to run. *)
Theorem desired_state_per_tick ignore i sp w d :
  (forall s nr, Call_ensure_running s nr ∈ events_of (tick X ignore i sp) w ->
     s = started_in i /\ nr = ignore) /\
  (forall inputs w0 s nr,
     Call_ensure_running s nr ∈ events_of (manager_thread X inputs) w0 ->
     (ignore_list X w0).1 = Ok nr) /\
  let desired :=
    desired_state (run_condition d) (operating_mode (started_in i)) ignore (name d) in
  (run_condition d = ALWAYS -> (desired = true <-> name d ∉ ignore)) /\
  (run_condition d = ONROAD_ONLY ->
     (desired = true <-> started_in i = true /\ name d ∉ ignore)) /\
  (name d ∈ ignore -> desired = false).
Proof.
  split; [| split; [| split; [| split]]].
  - intros s nr Hin.
    destruct (footprint_events _ _ w (tick_reconciler_arguments ignore i sp)) as [_ HF].
    rewrite Forall_forall in HF. by eapply HF.
  - intros inputs w0 s nr. apply manager_thread_ignore.
  - intros Hrc. unfold desired_state. rewrite Hrc.
    rewrite negb_true_iff. apply in_ignore_set_false.
  - intros Hrc. unfold desired_state. rewrite Hrc.
    rewrite andb_true_iff, negb_true_iff, in_ignore_set_false.
    by destruct (started_in i).
  - intros Hin. apply in_ignore_set_spec in Hin. unfold desired_state.
    rewrite Hin. simpl. rewrite andb_false_r. by destruct (run_condition d).
Qed.

End IgnoreSet.

(** * One turn of the loop, case by case *)

Section TickCases.
Context (X : Ext).

Lemma call_with_params_run ev w :
  exists r w', call_with_params X ev w = (r, w') /\ trace w' = trace w ++ [ev] /\
    (r = Ok tt \/ exists e, r = Raise e).
Proof.
  unfold call_with_params. destruct (fault X (trace w) ev) as [e |];
    eexists _, _; (split; [reflexivity |]); (split; [reflexivity |]); eauto.
Qed.

Lemma tick_cases ignore i sp w :
  let c := edge_clears (started_in i) sp in
  let wr := edge_write (started_in i) sp in
  let E := Call_ensure_running (started_in i) ignore in
  (exists e w', fault X (trace w) Call_sm_update = Some e /\
     tick X ignore i sp w = (Raise e, w') /\
     events_of (tick X ignore i sp) w = [Call_sm_update])
  \/
  (fault X (trace w) Call_sm_update = None /\
   ((exists e w', tick X ignore i sp w = (Raise e, w') /\
       events_of (tick X ignore i sp) w = [Call_sm_update] ++ c ++ wr /\ wr <> [])
    \/
    (exists e w', tick X ignore i sp w = (Raise e, w') /\
       events_of (tick X ignore i sp) w = [Call_sm_update] ++ c ++ wr ++ [E])
    \/
    (exists rest,
       events_of (tick X ignore i sp) w = [Call_sm_update] ++ c ++ wr ++ [E] ++ rest /\
       Forall after_reconcile_call rest))).
Proof.
  intros c wr E.
  set (R := print_running X ;;; send_managerState X ;;;
            check_shutdown X shutdown_params false).
  assert (HR : footprint after_reconcile_call R)
    by (subst R; unfold after_reconcile_call; footprint_auto).
  destruct (fault X (trace w) Call_sm_update) as [e |] eqn:Ef.
  { left. exists e. eexists.
    assert (Es : sm_update X i w = (Raise e, record Call_sm_update w))
      by (unfold sm_update, bind, call; by rewrite Ef).
    split; [done |]. unfold tick. rewrite (bind_Raise _ _ _ _ _ Es).
    split; [done |]. apply events_of_app. by rewrite (bind_Raise _ _ _ _ _ Es). }
  right. split; [done |].
  destruct (sm_update_Ok X i w Ef) as (w1 & E1 & T1).
  destruct (transition_clears_run X (started_in i) sp w1) as (w2 & E2 & T2).
  fold (edge_clears (started_in i) sp) in T2. fold c in T2.
  set (C := when (negb (eqb (started_in i) sp))
              (call_with_params X (Call_write_onroad_params (started_in i)))).
  assert (HC : exists r w3, C w2 = (r, w3) /\ trace w3 = trace w2 ++ wr /\
                 (r = Ok tt \/ (exists e, r = Raise e) /\ wr <> [])).
  { subst C wr. unfold when, edge_write.
    destruct (negb (eqb (started_in i) sp)).
    - destruct (call_with_params_run (Call_write_onroad_params (started_in i)) w2)
        as (r & w3 & Ec & Tc & Hr).
      exists r, w3. split; [done |]. split; [done |].
      destruct Hr as [-> | Hr]; [by left | by right].
    - exists (Ok tt), w2. split; [done |]. rewrite app_nil_r. auto. }
  destruct HC as (rc & w3 & EC & T3 & Hrc).
  assert (Hstep3 : forall r w', tick X ignore i sp w = (r, w') ->
            forall evs, trace w' = trace w3 ++ evs ->
            events_of (tick X ignore i sp) w = [Call_sm_update] ++ c ++ wr ++ evs).
  { intros r w' Ht evs Hev. apply events_of_app. rewrite Ht. simpl.
    rewrite Hev, T3, T2, T1. by rewrite <- !app_assoc. }
  assert (Htick : tick X ignore i sp w =
            bind C (fun _ => call_with_params X E ;;; R) w2).
  { unfold tick. by rewrite (bind_Ok _ _ _ _ _ E1), (bind_Ok _ _ _ _ _ E2). }
  destruct Hrc as [-> | [[e ->] Hwr]].
  2: { left. exists e, w3. rewrite (bind_Raise _ _ _ _ _ EC) in Htick.
       split; [done |]. split; [| done].
       rewrite (Hstep3 _ _ Htick []) by (by rewrite app_nil_r). by rewrite app_nil_r. }
  right. rewrite (bind_Ok _ _ _ _ _ EC) in Htick.
  destruct (call_with_params_run E w3) as (rd & w4 & ED & T4 & Hrd).
  destruct Hrd as [-> | [e ->]].
  2: { left. exists e, w4. rewrite (bind_Raise _ _ _ _ _ ED) in Htick.
       split; [done |]. by apply (Hstep3 _ _ Htick). }
  right. rewrite (bind_Ok _ _ _ _ _ ED) in Htick.
  destruct (footprint_events _ R w4 HR) as [TR FR].
  exists (events_of R w4). split; [| done].
  destruct (R w4) as [r w5] eqn:ER. simpl in TR.
  apply (Hstep3 _ _ Htick). rewrite TR, T4. by rewrite <- app_assoc.
Qed.
End TickCases.

(** * The loop: edges and Reconciler calls *)

Section LoopFacts.
Context (X : Ext).

Lemma filter_after_reconcile_call (q : Event -> bool) rest :
  (forall ev, after_reconcile_call ev -> q ev = false) ->
  Forall after_reconcile_call rest -> filter q rest = [].
Proof.
  intros Hq HF. induction HF as [| ev rest Hev _ IH]; [done |].
  rewrite filter_cons_False by (rewrite (Hq _ Hev); simpl; auto). done.
Qed.

Lemma filter_edge_clears (q : Event -> bool) s sp :
  (forall t, q (Params_clear_all t) = false) -> filter q (edge_clears s sp) = [].
Proof.
  intros Hq. unfold edge_clears.
  destruct (s && negb sp); [| destruct (negb s && sp)]; try done.
  all: rewrite filter_cons_False by (rewrite Hq; simpl; auto); done.
Qed.

Lemma filter_edge_write (q : Event -> bool) s sp :
  (forall b, q (Call_write_onroad_params b) = false) -> filter q (edge_write s sp) = [].
Proof.
  intros Hq. unfold edge_write. destruct (negb (eqb s sp)); [| done].
  rewrite filter_cons_False by (rewrite Hq; simpl; auto). done.
Qed.

(** X1: in a turn of the loop in which the wait for the device state
    does not raise, [write_onroad_params] is called once, with the new
    value of [started], when [started] differs from [started_prev], and
    not at all otherwise (lines 304-318). *)
Theorem onroad_params_on_edges ignore i sp w :
  fault X (trace w) Call_sm_update = None ->
  filter is_write_onroad (events_of (tick X ignore i sp) w) =
    if Bool.eqb (started_in i) sp then [] else [Call_write_onroad_params (started_in i)].
Proof.
  intros Hf.
  assert (Hw : filter is_write_onroad (edge_write (started_in i) sp) =
               if Bool.eqb (started_in i) sp then []
               else [Call_write_onroad_params (started_in i)]).
  { unfold edge_write. by destruct (eqb (started_in i) sp). }
  destruct (tick_cases X ignore i sp w)
    as [(e & w' & Hf' & _) | (_ & [(e & w' & _ & -> & _) | [(e & w' & _ & ->) | (rest & -> & HF)]])].
  - congruence.
  - rewrite !filter_app, Hw, filter_edge_clears by done. done.
  - rewrite !filter_app, Hw, filter_edge_clears by done. simpl. by rewrite app_nil_r.
  - rewrite !filter_app, Hw, filter_edge_clears by done.
    rewrite (filter_after_reconcile_call is_write_onroad rest) by (done || by intros ev (? & ? & ? & ?)).
    simpl. by rewrite !app_nil_r.
Qed.

Lemma tick_grows ignore i sp : grows (tick X ignore i sp).
Proof. grows_auto. Qed.

Lemma manager_loop_grows ignore inputs sp : grows (manager_loop X ignore inputs sp).
Proof. apply footprint_manager_loop. intros. apply tick_grows. Qed.

Lemma manager_loop_events ignore i inputs sp w :
  events_of (manager_loop X ignore (i :: inputs) sp) w =
  events_of (tick X ignore i sp) w ++
  match tick X ignore i sp w with
  | (Ok false, w1) => events_of (manager_loop X ignore inputs (started_in i)) w1
  | _ => []
  end.
Proof.
  simpl manager_loop. rewrite events_of_bind.
  - f_equal. destruct (tick X ignore i sp w) as [[[|] | e | ] w1]; try done.
    by apply events_of_nil.
  - apply tick_grows.
  - intros [|]; [grows_auto | apply manager_loop_grows].
Qed.

(** What a turn contributes to a list of events selected by [q]. *)
Lemma tick_clears ignore i sp w :
  filter is_clear (events_of (tick X ignore i sp) w) = [] \/
  filter is_clear (events_of (tick X ignore i sp) w) = edge_clears (started_in i) sp.
Proof.
  assert (Hc : filter is_clear (edge_clears (started_in i) sp) = edge_clears (started_in i) sp).
  { unfold edge_clears.
    destruct (started_in i && negb sp); [| destruct (negb (started_in i) && sp)]; done. }
  destruct (tick_cases X ignore i sp w)
    as [(e & w' & _ & _ & ->) | (_ & [(e & w' & _ & -> & _) | [(e & w' & _ & ->) | (rest & -> & HF)]])].
  - by left.
  - right. rewrite !filter_app, Hc, filter_edge_write by done. simpl. by rewrite app_nil_r.
  - right. rewrite !filter_app, Hc, filter_edge_write by done. simpl. by rewrite app_nil_r.
  - right. rewrite !filter_app, Hc, filter_edge_write by done.
    rewrite (filter_after_reconcile_call is_clear rest) by (done || by intros ev (? & ? & ? & ?)).
    simpl. by rewrite !app_nil_r.
Qed.

Lemma tick_Ok_clears ignore i sp w b w' :
  tick X ignore i sp w = (Ok b, w') ->
  filter is_clear (events_of (tick X ignore i sp) w) = edge_clears (started_in i) sp /\
  filter is_ensure_running (events_of (tick X ignore i sp) w) =
    [Call_ensure_running (started_in i) ignore].
Proof.
  intros Ht.
  assert (Hc : filter is_clear (edge_clears (started_in i) sp) = edge_clears (started_in i) sp).
  { unfold edge_clears.
    destruct (started_in i && negb sp); [| destruct (negb (started_in i) && sp)]; done. }
  destruct (tick_cases X ignore i sp w)
    as [(e & w1 & _ & Hr & _) | (_ & [(e & w1 & Hr & _) | [(e & w1 & Hr & _) | (rest & -> & HF)]])];
    try congruence.
  rewrite !filter_app, Hc, !filter_edge_write, !filter_edge_clears by done.
  rewrite (filter_after_reconcile_call is_clear rest) by (done || by intros ev (? & ? & ? & ?)).
  rewrite (filter_after_reconcile_call is_ensure_running rest)
    by (done || by intros ev (? & ? & ? & ?)).
  simpl. by rewrite !app_nil_r.
Qed.

Lemma tick_reconciler_calls ignore i sp w :
  filter is_ensure_running (events_of (tick X ignore i sp) w) = [] \/
  filter is_ensure_running (events_of (tick X ignore i sp) w) =
    [Call_ensure_running (started_in i) ignore].
Proof.
  destruct (tick_cases X ignore i sp w)
    as [(e & w' & _ & _ & ->) | (_ & [(e & w' & _ & -> & _) | [(e & w' & _ & ->) | (rest & -> & HF)]])].
  - by left.
  - left. rewrite !filter_app, filter_edge_write, filter_edge_clears by done. done.
  - right. rewrite !filter_app, filter_edge_write, filter_edge_clears by done. done.
  - right. rewrite !filter_app, filter_edge_write, filter_edge_clears by done.
    rewrite (filter_after_reconcile_call is_ensure_running rest)
      by (done || by intros ev (? & ? & ? & ?)).
    done.
Qed.

Lemma alternating_edge s sp l :
  alternating (negb s) l -> alternating (negb sp) (edge_clears s sp ++ l).
Proof.
  unfold edge_clears. destruct s, sp; simpl; auto.
Qed.

Lemma manager_loop_clears_alternate ignore inputs sp w :
  alternating (negb sp) (filter is_clear (events_of (manager_loop X ignore inputs sp) w)).
Proof.
  revert sp w. induction inputs as [| i inputs IH]; intros sp w.
  - rewrite events_of_nil by done. done.
  - rewrite manager_loop_events, filter_app.
    destruct (tick X ignore i sp w) as [[[|] | e | ] w1] eqn:Et.
    + destruct (tick_Ok_clears _ _ _ _ _ _ Et) as [-> _].
      apply alternating_edge. done.
    + destruct (tick_Ok_clears _ _ _ _ _ _ Et) as [-> _].
      apply alternating_edge. apply IH.
    + destruct (tick_clears ignore i sp w) as [-> | ->]; [done |].
      apply alternating_edge. done.
    + destruct (tick_clears ignore i sp w) as [-> | ->]; [done |].
      apply alternating_edge. done.
Qed.

Lemma manager_loop_reconciler_calls ignore inputs sp w :
  filter is_ensure_running (events_of (manager_loop X ignore inputs sp) w)
    `prefix_of` ((fun i => Call_ensure_running (started_in i) ignore) <$> inputs).
Proof.
  revert sp w. induction inputs as [| i inputs IH]; intros sp w.
  - rewrite events_of_nil by done. done.
  - rewrite manager_loop_events, filter_app, fmap_cons.
    destruct (tick X ignore i sp w) as [[[|] | e | ] w1] eqn:Et.
    + destruct (tick_Ok_clears _ _ _ _ _ _ Et) as [_ ->].
      simpl. apply prefix_cons, prefix_nil.
    + destruct (tick_Ok_clears _ _ _ _ _ _ Et) as [_ ->].
      simpl. apply prefix_cons, IH.
    + destruct (tick_reconciler_calls ignore i sp w) as [-> | ->]; simpl;
        [apply prefix_nil | apply prefix_cons, prefix_nil].
    + destruct (tick_reconciler_calls ignore i sp w) as [-> | ->]; simpl;
        [apply prefix_nil | apply prefix_cons, prefix_nil].
Qed.

End LoopFacts.

(** * manager_thread as a whole *)

Section ThreadFacts.
Context (X : Ext).

Lemma manager_thread_run inputs w :
  exists ig,
    (ignore_list X w).1 = Ok ig /\
    manager_thread X inputs w = thread_from X ig inputs (record_all thread_preamble w).
Proof.
  destruct (ignore_list_run X w) as (ig & Hig). exists ig.
  split; [by rewrite (Hig w) |].
  assert (Hw : record (Log "environ") (record (Log "manager start")
                 (record (Log "bind") (record (Enter "manager_thread") w))) =
               record_all thread_preamble w).
  { unfold record_all, record, thread_preamble. simpl. f_equal. by rewrite <- !app_assoc. }
  unfold manager_thread, cloudlog. unfold bind at 1 2 3 4 5. unfold emit at 1 2 3 4.
  rewrite Hw. by rewrite (Hig (record_all thread_preamble w)).
Qed.

Lemma thread_from_grows ig inputs : grows (thread_from X ig inputs).
Proof.
  unfold thread_from. repeat (apply footprint_bind; [footprint_auto | intros ?]).
  apply manager_loop_grows.
Qed.

Lemma manager_thread_events inputs w ig :
  (ignore_list X w).1 = Ok ig ->
  events_of (manager_thread X inputs) w =
  thread_preamble ++ events_of (thread_from X ig inputs) (record_all thread_preamble w).
Proof.
  intros Hig. destruct (manager_thread_run inputs w) as (ig' & Hig' & Hrun).
  assert (ig' = ig) as -> by congruence.
  apply events_of_app. rewrite Hrun.
  rewrite (events_of_trace _ _ (thread_from_grows ig inputs)). simpl.
  by rewrite <- app_assoc.
Qed.

(** The events of [thread_from], selected by [q], when the two calls
    before the loop are not selected or are. *)
Lemma thread_from_events ig inputs w :
  exists pre,
    (pre = [Call_write_onroad_params false] \/
     pre = [Call_write_onroad_params false; Call_ensure_running false ig]) /\
    (events_of (thread_from X ig inputs) w = pre \/
     exists w2,
       pre = [Call_write_onroad_params false; Call_ensure_running false ig] /\
       thread_from X ig inputs w = manager_loop X ig inputs false w2 /\
       events_of (thread_from X ig inputs) w =
         pre ++ events_of (manager_loop X ig inputs false) w2).
Proof.
  unfold thread_from.
  destruct (call_with_params_run X (Call_write_onroad_params false) w)
    as (r1 & w1 & E1 & T1 & Hr1).
  destruct Hr1 as [-> | [e ->]].
  2: { exists [Call_write_onroad_params false]. split; [by left |]. left.
       apply events_of_app. rewrite (bind_Raise _ _ _ _ _ E1). simpl. by rewrite T1. }
  destruct (call_with_params_run X (Call_ensure_running false ig) w1)
    as (r2 & w2 & E2 & T2 & Hr2).
  exists [Call_write_onroad_params false; Call_ensure_running false ig].
  split; [by right |].
  destruct Hr2 as [-> | [e ->]].
  2: { left. apply events_of_app.
       rewrite (bind_Ok _ _ _ _ _ E1), (bind_Raise _ _ _ _ _ E2). simpl.
       rewrite T2, T1. by rewrite <- app_assoc. }
  right. exists w2. split; [done |].
  rewrite (bind_Ok _ _ _ _ _ E1), (bind_Ok _ _ _ _ _ E2). split; [done |].
  apply events_of_app. rewrite (bind_Ok _ _ _ _ _ E1), (bind_Ok _ _ _ _ _ E2).
  rewrite (events_of_trace _ _ (manager_loop_grows X ig inputs false)), T2, T1.
  by rewrite <- !app_assoc.
Qed.

(** X2: over a whole run of [manager_thread] the calls of
    [ensure_running] are a prefix of: one call with [started=False]
    before the loop (line 300), then one call per state read, with that
    state's [started]; each of them is passed the ignore list computed at
    lines 289-294.  The prefix is proper when the run ends early. *)
Theorem reconciler_called_once_per_turn inputs w :
  exists ig,
    (ignore_list X w).1 = Ok ig /\
    filter is_ensure_running (events_of (manager_thread X inputs) w)
      `prefix_of` reconciler_calls ig inputs.
Proof.
  destruct (manager_thread_run inputs w) as (ig & Hig & _). exists ig.
  split; [done |]. rewrite (manager_thread_events inputs w ig Hig), filter_app.
  change (filter is_ensure_running thread_preamble) with (@nil Event). simpl.
  destruct (thread_from_events ig inputs (record_all thread_preamble w))
    as (pre & Hpre & [-> | (w2 & -> & _ & ->)]).
  - destruct Hpre as [-> | ->]; [apply prefix_nil | apply prefix_cons, prefix_nil].
  - rewrite filter_app. change (filter is_ensure_running _ ++ ?l)
      with (Call_ensure_running false ig :: l).
    apply prefix_cons, manager_loop_reconciler_calls.
Qed.

(** X3: the clears of the two transition categories alternate over a
    run of [manager_thread], starting with CLEAR_ON_ONROAD_TRANSITION:
    the device cannot leave the road twice without entering it in
    between (lines 302-318). *)
Theorem transition_clears_alternate inputs w :
  alternating true (filter is_clear (events_of (manager_thread X inputs) w)).
Proof.
  destruct (manager_thread_run inputs w) as (ig & Hig & _).
  rewrite (manager_thread_events inputs w ig Hig), filter_app.
  change (filter is_clear thread_preamble) with (@nil Event). simpl.
  destruct (thread_from_events ig inputs (record_all thread_preamble w))
    as (pre & Hpre & [-> | (w2 & -> & _ & ->)]).
  - by destruct Hpre as [-> | ->].
  - rewrite filter_app. change (filter is_clear _ ++ ?l) with l.
    apply (manager_loop_clears_alternate X ig inputs false).
Qed.

Lemma manager_loop_Ok_flag ig inputs sp w w' :
  manager_loop X ig inputs sp w = (Ok tt, w') ->
  existsb (flag X (store w')) shutdown_params = true.
Proof.
  revert sp w. induction inputs as [| i inputs IH]; intros sp w H; [done |].
  simpl in H. apply bind_Ok_inv in H as (b & w1 & Et & H).
  destruct b.
  - unfold ret in H. simplify_eq.
    by destruct (tick_Ok_inv X _ _ _ _ _ _ Et) as (_ & _ & _ & <- & _).
  - by apply IH in H.
Qed.

Lemma manager_thread_Ok_flag inputs w w' :
  manager_thread X inputs w = (Ok tt, w') ->
  existsb (flag X (store w')) shutdown_params = true.
Proof.
  intros H. destruct (manager_thread_run inputs w) as (ig & _ & Hrun).
  rewrite Hrun in H. unfold thread_from in H.
  apply bind_Ok_inv in H as (? & w1 & _ & H).
  apply bind_Ok_inv in H as (? & w2 & _ & H).
  by apply manager_loop_Ok_flag in H.
Qed.

(** X4: [manager_thread] returns normally only with one of DoUninstall,
    DoShutdown, DoReboot set in the store it leaves (lines 332-341). *)
Theorem loop_returns_on_flag inputs w w' :
  manager_thread X inputs w = (Ok tt, w') ->
  exists p, p ∈ shutdown_params /\ flag X (store w') p = true.
Proof.
  intros H. apply manager_thread_Ok_flag in H.
  apply existsb_exists in H as (p & Hp & Hf).
  exists p. split; [by apply list_elem_of_In | done].
Qed.

End ThreadFacts.

(** * main: the ways out *)

Section ExitPaths.
Context (X : Ext).

Lemma supervised_result inputs w r w2 :
  (forall h p b, fault X h (Call_stop p b) = None) ->
  guarded_thread X inputs w = (r, w2) ->
  r <> Fuel ->
  supervised X inputs w = (r, record_all (cleanup_events X) w2).
Proof.
  intros Hstop Hg Hr. unfold supervised. fold (guarded_thread X inputs).
  unfold try_finally. rewrite Hg, (manager_cleanup_passes X w2 Hstop).
  fold (cleanup_events X). by destruct r.
Qed.

Lemma guarded_thread_passes inputs w r w2 :
  manager_thread X inputs w = (r, w2) ->
  (forall e, r = Raise e -> is_Exception e = false) ->
  guarded_thread X inputs w = (r, w2).
Proof.
  intros Ht Hr. unfold guarded_thread, try_except. rewrite Ht.
  destruct r as [[] | e | ]; try done. by rewrite (Hr e eq_refl).
Qed.

Lemma guarded_thread_catches inputs w e w2 :
  manager_thread X inputs w = (Raise e, w2) ->
  is_Exception e = true ->
  fault X (trace w2 ++ [Log "traceback"]) Call_sentry_capture_exception = None ->
  guarded_thread X inputs w = (Ok tt, record_all crash_report w2).
Proof.
  intros Ht He Hs. unfold guarded_thread, try_except. rewrite Ht, He.
  unfold bind, emit, call. simpl. rewrite Hs.
  unfold record_all, record, crash_report. simpl. by rewrite <- app_assoc.
Qed.

Lemma record_all_app evs1 evs2 w :
  record_all evs2 (record_all evs1 w) = record_all (evs1 ++ evs2) w.
Proof. unfold record_all. simpl. by rewrite <- app_assoc. Qed.

Lemma supervised_no_host inputs w :
  filter is_host_action (events_of (supervised X inputs) w) = [].
Proof.
  pose proof (supervised_run X inputs w) as Hs.
  assert (Hgn : filter is_host_action (events_of (guarded_thread X inputs) w) = []).
  { apply footprint_filter_nil.
    eapply footprint_weaken; [| apply guarded_thread_inside]. by intros ev (? & ? & ?). }
  destruct (guarded_thread X inputs w) as [[[] | e | ] wc];
    destruct Hs as [Hs Hs2]; rewrite ?Hs2, ?Hs, ?filter_app, ?manager_cleanup_no_host, Hgn;
    done.
Qed.

Lemma main_head_no_host w :
  filter is_host_action (events_of (main_head X) w) = [].
Proof.
  apply footprint_filter_nil.
  eapply footprint_weaken; [| apply main_head_outside]. by intros ev (? & ? & ?).
Qed.

(** X5: a signal, not an error.  [SystemExit] (the SIGTERM handler of
    line 354) or [KeyboardInterrupt] raised in the loop is not caught by
    [except Exception]: the cleanup runs, the exception leaves [main],
    and no uninstall, reboot or shutdown is performed (lines 354-373). *)
Theorem signal_skips_terminal_action inputs w w1 e w2 :
  main_head X w = (Ok true, w1) ->
  manager_thread X inputs w1 = (Raise e, w2) ->
  is_Exception e = false ->
  (forall h p b, fault X h (Call_stop p b) = None) ->
  main X inputs w = (Raise e, record_all (cleanup_events X) w2) /\
  filter is_host_action (events_of (main X inputs) w) = [].
Proof.
  intros Hh Ht He Hstop.
  assert (Hg : guarded_thread X inputs w1 = (Raise e, w2)).
  { apply guarded_thread_passes; [done |]. by intros e' [= <-]. }
  assert (Hs : supervised X inputs w1 = (Raise e, record_all (cleanup_events X) w2))
    by (by apply supervised_result).
  split.
  - by rewrite (main_result X inputs w w1 Hh), (bind_Raise _ _ _ _ _ Hs).
  - rewrite main_events, Hh, Hs, app_nil_r, filter_app.
    by rewrite main_head_no_host, supervised_no_host.
Qed.


(** X7: when [manager_thread] returns, [main] runs the cleanup and then
    performs exactly one of uninstall, reboot, shutdown
    (lines 356-373). *)
Theorem normal_exit_performs_one_action inputs w w1 w2 :
  main_head X w = (Ok true, w1) ->
  manager_thread X inputs w1 = (Ok tt, w2) ->
  (forall h p b, fault X h (Call_stop p b) = None) ->
  main X inputs w = terminal_action X (record_all (cleanup_events X) w2) /\
  length (filter is_host_action (events_of (main X inputs) w)) = 1.
Proof.
  intros Hh Ht Hstop.
  assert (Hg : guarded_thread X inputs w1 = (Ok tt, w2))
    by (apply guarded_thread_passes; done).
  assert (Hs : supervised X inputs w1 = (Ok tt, record_all (cleanup_events X) w2))
    by (by apply supervised_result).
  split.
  - by rewrite (main_result X inputs w w1 Hh), (bind_Ok _ _ _ _ _ Hs).
  - rewrite main_events, Hh, Hs, !filter_app, main_head_no_host, supervised_no_host.
    rewrite (terminal_action_events X). simpl.
    pose proof (manager_thread_Ok_flag X inputs w1 w2 Ht) as Hf.
    apply existsb_exists in Hf as (p & Hp & Hf). apply list_elem_of_In in Hp.
    unfold shutdown_params in Hp.
    repeat (apply elem_of_cons in Hp as [-> | Hp]); [| | | by apply elem_of_nil in Hp];
      repeat case_match; simpl; congruence.
Qed.

End ExitPaths.

(** * manager_init: the legacy priority remapping *)

Section Migration.
Context (X : Ext).

Lemma old_priorities_known slc :
  exists p1 p2 p3,
    old_priorities slc = [p1; p2; p3] /\
    is_Some (list_index primary_priorities p1) /\
    is_Some (list_index primary_priorities p2) /\
    is_Some (list_index primary_priorities p3).
Proof.
  unfold old_priorities, priorities_mapping, dict_get.
  repeat case_match; eexists _, _, _; (split; [reflexivity |]);
    repeat split; eexists; reflexivity.
Qed.

Lemma slot_keys :
  String.append "SLCPriority" (pretty 1%nat) = "SLCPriority1" /\
  String.append "SLCPriority" (pretty 2%nat) = "SLCPriority2" /\
  String.append "SLCPriority" (pretty 3%nat) = "SLCPriority3".
Proof. by vm_compute. Qed.

Lemma migrate_slc_priority_run w :
  let slc := decode_int X (store w !! "SLCPriority") in
  migrate_slc_priority X w =
  if Z.eqb slc 0 then (Ok tt, w)
  else (Ok tt, record_all ((fun kv => Params_put kv.1 kv.2) <$> remap_puts X (old_priorities slc))
                 (with_store (put_all (remap_puts X (old_priorities slc))) w)).
Proof.
  intros slc. unfold migrate_slc_priority, bind at 1, params_get_int. fold slc.
  destruct (Z.eqb slc 0); [done |].
  fold (old_priorities slc).
  destruct (old_priorities_known slc) as (p1 & p2 & p3 & -> & [i1 H1] & [i2 H2] & [i3 H3]).
  destruct slot_keys as (K1 & K2 & K3).
  unfold remap_puts, slot_value.
  cbn [when negb enumerate for_ fst snd]. rewrite K1, K2, K3, H1, H2, H3.
  unfold bind, params_put_float, params_put_int, params_put, ret, record_all,
    with_store, record, put_all. simpl. f_equal. f_equal.
  by rewrite <- !app_assoc.
Qed.

(** X8: the remapping of the legacy [SLCPriority] setting
    (lines 193-221) never raises.  It does nothing when the setting
    reads 0; otherwise it resets the setting to 0, writes the three
    priority slots with the positions of the sources the old value stood
    for, and leaves every other key alone.  It does nothing when run
    again, provided the written 0 reads back as 0. *)
Theorem legacy_priority_migration w :
  exists w',
    migrate_slc_priority X w = (Ok tt, w') /\
    let slc := decode_int X (store w !! "SLCPriority") in
    (slc = 0%Z -> w' = w) /\
    (slc <> 0%Z ->
       store w' !! "SLCPriority" = Some (encode_int X 0) /\
       (exists p1 p2 p3,
          old_priorities slc = [p1; p2; p3] /\
          store w' !! "SLCPriority1" = Some (slot_value X p1) /\
          store w' !! "SLCPriority2" = Some (slot_value X p2) /\
          store w' !! "SLCPriority3" = Some (slot_value X p3)) /\
       (forall k, k ∉ ["SLCPriority"; "SLCPriority1"; "SLCPriority2"; "SLCPriority3"] ->
          store w' !! k = store w !! k)) /\
    (decode_int X (Some (encode_int X 0)) = 0%Z ->
       migrate_slc_priority X w' = (Ok tt, w')).
Proof.
  pose proof (migrate_slc_priority_run w) as Hrun. cbv zeta in Hrun.
  destruct (Z.eqb_spec (decode_int X (store w !! "SLCPriority")) 0) as [Hz | Hnz].
  - exists w. split; [done |]. cbv zeta. split; [done |]. split; [done |].
    intros _. done.
  - eexists. split; [exact Hrun |]. cbv zeta. split; [done |].
    destruct (old_priorities_known (decode_int X (store w !! "SLCPriority")))
      as (p1 & p2 & p3 & Hold & _).
    rewrite Hold. unfold remap_puts, put_all. simpl.
    split.
    + intros _. split; [by rewrite lookup_insert_eq |]. split.
      * exists p1, p2, p3. split; [done |].
        repeat split;
          repeat first [ rewrite lookup_insert_eq; reflexivity
                       | rewrite lookup_insert_ne by done ].
      * intros k Hk.
        rewrite !lookup_insert_ne; [done | intros <-; apply Hk; repeat constructor ..].
    + intros Hcodec.
      pose proof (migrate_slc_priority_run
                    (record_all
                       [ Params_put "SLCPriority1" (slot_value X p1);
                         Params_put "SLCPriority" (encode_int X 0);
                         Params_put "SLCPriority2" (slot_value X p2);
                         Params_put "SLCPriority" (encode_int X 0);
                         Params_put "SLCPriority3" (slot_value X p3);
                         Params_put "SLCPriority" (encode_int X 0) ]
                       (with_store (put_all (remap_puts X [p1; p2; p3])) w))) as H2.
      cbv zeta in H2. unfold remap_puts, put_all in H2. simpl in H2.
      rewrite lookup_insert_eq, Hcodec in H2. exact H2.
Qed.

End Migration.

(** * manager_thread: the ignore list *)

Section IgnoreList.
Context (X : Ext).

Lemma split_on_nonempty sep s : split_on sep s <> [].
Proof.
  destruct s as [| c s]; simpl; [done |].
  destruct (Ascii.eqb c sep); [done |]. by destruct (split_on sep s).
Qed.

Lemma split_on_join sep s : join_with sep (split_on sep s) = s.
Proof.
  induction s as [| c s IH]; [done |]. simpl.
  destruct (Ascii.eqb_spec c sep) as [-> | Hne].
  - pose proof (split_on_nonempty sep s) as Hn.
    destruct (split_on sep s) as [| x l] eqn:E; [done |].
    simpl in *. by rewrite IH.
  - pose proof (split_on_nonempty sep s) as Hn.
    destruct (split_on sep s) as [| x l] eqn:E; [done |].
    destruct l as [| y l]; simpl in *; by rewrite <- IH.
Qed.

Lemma split_on_no_sep sep s :
  Forall (fun x => has_char sep x = false) (split_on sep s).
Proof.
  induction s as [| c s IH]; simpl; [by repeat constructor |].
  destruct (Ascii.eqb c sep) eqn:Ec; [by constructor |].
  destruct (split_on sep s) as [| x l].
  - constructor; [simpl; by rewrite Ec | constructor].
  - apply Forall_cons in IH as [Hx Hl]. constructor; [| done]. simpl. by rewrite Ec.
Qed.

(** X9: the ignore list of lines 289-294 is always built.  The fields
    of BLOCK, joined with commas, give BLOCK back; every non-empty field
    is ignored; the empty name never is; and an ignored name is one of
    manage_athenad and uploader on an unregistered device, pandad with
    NOBOARD set, or a comma-free field of BLOCK. *)
Theorem blocked_names_are_fields w :
  exists ig,
    (ignore_list X w).1 = Ok ig /\
    let fields := split_on ","%char (default "" (environ w !! "BLOCK")) in
    join_with ","%char fields = default "" (environ w !! "BLOCK") /\
    (forall x, x ∈ fields -> x <> "" -> x ∈ ig) /\
    ("" ∉ ig) /\
    (forall x, x ∈ ig ->
       (x ∈ ["manage_athenad"; "uploader"] /\ unregistered X w) \/
       (x = "pandad" /\ is_Some (environ w !! "NOBOARD")) \/
       (x ∈ fields /\ has_char ","%char x = false)).
Proof.
  eexists. split; [reflexivity |]. cbv zeta. simpl.
  set (fields := split_on ","%char (default "" (environ w !! "BLOCK"))).
  set (blocked := filter (fun x => negb (String.eqb x "")) fields).
  assert (Hb : forall x, x ∈ blocked <-> x <> "" /\ x ∈ fields).
  { intros x. subst blocked. rewrite list_elem_of_filter.
    destruct (String.eqb_spec x "") as [-> | Hne]; simpl; split.
    - by intros [[] _].
    - by intros [Hc _].
    - by intros [_ H].
    - by intros [_ H]. }
  split; [apply split_on_join |]. split; [| split].
  - intros x Hx Hne. rewrite !elem_of_app. right. by apply Hb.
  - rewrite !elem_of_app. intros [[H | H] | H].
    + destruct (store w !! "DongleId") as [d |]; [destruct (String.eqb d _) |];
        repeat (apply elem_of_cons in H as [H | H]; [done |]); by apply elem_of_nil in H.
    + destruct (environ w !! "NOBOARD");
        repeat (apply elem_of_cons in H as [H | H]; [done |]); by apply elem_of_nil in H.
    + by apply Hb in H as [? _].
  - intros x. rewrite !elem_of_app. intros [[H | H] | H].
    + left. unfold unregistered.
      destruct (store w !! "DongleId") as [d |] eqn:Ed.
      * destruct (String.eqb_spec d (UNREGISTERED_DONGLE_ID X)) as [-> | Hne];
          [split; [done | by right] | by apply elem_of_nil in H].
      * split; [done | by left].
    + right. left. destruct (environ w !! "NOBOARD") eqn:En; [| by apply elem_of_nil in H].
      apply elem_of_cons in H as [-> | H]; [by split | by apply elem_of_nil in H].
    + right. right. apply Hb in H as [_ H]. split; [done |].
      pose proof (split_on_no_sep ","%char (default "" (environ w !! "BLOCK"))) as HF.
      rewrite Forall_forall in HF. by apply HF.
Qed.

End IgnoreList.

(** * manager_init: identity and version stamps *)

Section EnvironKept.
Context (X : Ext).

Lemma environ_kept_pure {A} (m : M A) :
  (forall w, environ (m w).2 = environ w) -> environ_kept m.
Proof. done. Qed.

Lemma environ_kept_bind {A B} (m : M A) (f : A -> M B) :
  environ_kept m -> (forall a, environ_kept (f a)) -> environ_kept (bind m f).
Proof.
  intros Hm Hf w. unfold bind. specialize (Hm w).
  destruct (m w) as [[a | e | ] w1]; simpl in *; try done.
  by rewrite Hf.
Qed.

Lemma environ_kept_for_ {A} (l : list A) (body : A -> M unit) :
  (forall x, environ_kept (body x)) -> environ_kept (for_ l body).
Proof.
  intros Hb. induction l as [| x l IH]; simpl; [done |].
  apply environ_kept_bind; auto.
Qed.

Lemma environ_kept_try_except {A} (body : M A) catches handler :
  environ_kept body -> (forall e, environ_kept (handler e)) ->
  environ_kept (try_except body catches handler).
Proof.
  intros Hb Hh w. unfold try_except. specialize (Hb w).
  destruct (body w) as [[a | e | ] w1]; simpl in *; try done.
  destruct (catches e); [| done]. by rewrite Hh.
Qed.

Lemma environ_kept_call ev : environ_kept (call X ev).
Proof. intros w. unfold call. by destruct (fault X (trace w) ev). Qed.

Lemma environ_kept_call_with_params ev : environ_kept (call_with_params X ev).
Proof. intros w. unfold call_with_params. by destruct (fault X (trace w) ev). Qed.

End EnvironKept.

Ltac environ_kept_step :=
  lazymatch goal with
  | |- environ_kept (bind _ _) => apply environ_kept_bind; [| intros ?]
  | |- environ_kept (for_ _ _) => apply environ_kept_for_; intros ?
  | |- environ_kept (try_except _ _ _) => apply environ_kept_try_except; [| intros ?]
  | |- environ_kept (call _ _) => apply environ_kept_call
  | |- environ_kept (call_with_params _ _) => apply environ_kept_call_with_params
  | |- environ_kept (if ?c then _ else _) => destruct c
  | |- environ_kept (match ?c with _ => _ end) => destruct c
  | |- environ_kept _ => apply environ_kept_pure; reflexivity
  end.

Ltac environ_kept_auto :=
  repeat first [ environ_kept_step | progress (autounfold with prog) | progress simpl ].

Section Identity.
Context (X : Ext).

(** Inverts one step [m w = (Ok a, w')] of a straight-line program. *)
Ltac invert_step E :=
  cbv beta delta [params_get_float params_get_int params_get_bool params_get get_trace
                  os_getenv ret params_put_bool params_put_float params_put_int params_put
                  emit cloudlog os_environ_set params_clear_all call] in E;
  first
    [ injection E as <- <-
    | injection E as <-
    | match type of E with context [fault X ?h ?ev] =>
        destruct (fault X h ev); [discriminate E | injection E as <- <-] end
    | match type of E with context [fault X ?h ?ev] =>
        destruct (fault X h ev); [discriminate E | injection E as <-] end ].

Lemma manager_init_identity_Ok w w' :
  manager_init_identity X w = (Ok tt, w') ->
  (exists h d,
     register_result X h = Some d /\ d <> "" /\
     environ w' !! "DONGLE_ID" = Some d) /\
  environ w' !! "CLEAN" = (if is_dirty X then environ w !! "CLEAN" else Some "1") /\
  (forall k, k <> "DONGLE_ID" -> k <> "CLEAN" -> environ w' !! k = environ w !! k) /\
  (forall kv, kv ∈ version_stamps X -> store w' !! kv.1 = Some kv.2).
Proof.
  intros H. unfold manager_init_identity in H.
  apply bind_Ok_inv in H as (q & w1 & E1 & H). invert_step E1.
  apply bind_Ok_inv in H as ([] & w2 & E2 & H).
  assert (He2 : environ w2 = environ w).
  { unfold when in E2. destruct (Qle_bool _ _); invert_step E2; done. }
  clear E2.
  apply bind_Ok_inv in H as ([] & w3 & E3 & H).
  assert (He3 : environ w3 = environ w).
  { rewrite migrate_slc_priority_run in E3. cbv zeta in E3.
    destruct (Z.eqb _ _); injection E3 as <-; done. }
  clear E3.
  apply bind_Ok_inv in H as ([] & w4 & E4 & H).
  assert (He4 : environ w4 = environ w).
  { unfold try_except, call in E4.
    destruct (fault X (trace w3) (Call_os_mkdir "/dev/shm")) as [e |].
    - destruct (is_class "FileExistsError" e || is_class "PermissionError" e);
        [| discriminate E4].
      destruct (is_class "FileExistsError" e); invert_step E4; done.
    - injection E4 as <-. done. }
  clear E4.
  repeat (apply bind_Ok_inv in H as ([] & ? & E & H); invert_step E).
  apply bind_Ok_inv in H as (h & ? & E & H). invert_step E.
  apply bind_Ok_inv in H as (d & w5 & Ed & H).
  destruct (register_result X _) as [[| c r] |] eqn:Er;
    try (unfold bind, params_get, raise in Ed; discriminate Ed).
  invert_step Ed.
  apply bind_Ok_inv in H as ([] & ? & E & H). invert_step E.
  apply bind_Ok_inv in H as ([] & w6 & E6 & H).
  apply bind_Ok_inv in H as ([] & ? & E & H). invert_step E.
  invert_step H.
  unfold when in E6.
  split; [| split; [| split]].
  - eexists _, (String c r). split; [exact Er |]. split; [done |].
    destruct (negb (is_dirty X)); invert_step E6; simpl;
      rewrite ?lookup_insert_ne by done; by rewrite lookup_insert_eq.
  - destruct (is_dirty X); simpl in E6; invert_step E6; simpl.
    + rewrite lookup_insert_ne by done. by rewrite He4.
    + by rewrite lookup_insert_eq.
  - intros k Hk1 Hk2.
    destruct (negb (is_dirty X)); invert_step E6; simpl;
      rewrite ?lookup_insert_ne by done; by rewrite He4.
  - intros kv Hkv.
    assert (Hs : store w6 !! kv.1 = Some kv.2).
    { destruct (negb (is_dirty X)); invert_step E6; simpl;
        unfold version_stamps in Hkv;
        repeat (apply elem_of_cons in Hkv as [-> | Hkv];
                [simpl; rewrite ?lookup_insert_ne by done; by rewrite lookup_insert_eq |]);
        by apply elem_of_nil in Hkv. }
    exact Hs.
Qed.

Lemma manager_init_params_environ : environ_kept (manager_init_params X).
Proof. environ_kept_auto. Qed.

Lemma manager_init_preimport_environ : environ_kept (manager_init_preimport X).
Proof. environ_kept_auto. Qed.

Lemma manager_init_preimport_store w w' :
  manager_init_preimport X w = (Ok tt, w') ->
  store w' = helper_store X Call_set_model (store w).
Proof.
  unfold manager_init_preimport, preimport. intros H.
  apply bind_Ok_inv in H as ([] & w1 & E1 & H).
  destruct (for_call_cases X Call_prepare (registry X) w)
    as [[E _] | (j & p & e & _ & _ & _ & E)]; rewrite E in E1; [| discriminate E1].
  injection E1 as <-. unfold call_with_params in H.
  destruct (fault X _ Call_set_model); [discriminate H |]. by injection H as <-.
Qed.

(** X10: when [manager_init] completes, DONGLE_ID in the environment is
    the non-empty id [register] returned, CLEAN is set to 1 unless the
    checkout is dirty, no other environment variable has changed, and
    the eight version stamps of lines 231-239 are in the store that the
    last helper, [set_model], was handed (lines 231-268). *)
Theorem init_registers_device w w' :
  manager_init X w = (Ok tt, w') ->
  (exists h d,
     register_result X h = Some d /\ d <> "" /\
     environ w' !! "DONGLE_ID" = Some d) /\
  environ w' !! "CLEAN" = (if is_dirty X then environ w !! "CLEAN" else Some "1") /\
  (forall k, k <> "DONGLE_ID" -> k <> "CLEAN" -> environ w' !! k = environ w !! k) /\
  (exists s, store w' = helper_store X Call_set_model s /\
             forall kv, kv ∈ version_stamps X -> s !! kv.1 = Some kv.2).
Proof.
  intros H. unfold manager_init in H.
  apply bind_Ok_inv in H as ([] & w1 & E1 & H).
  apply bind_Ok_inv in H as ([] & w2 & E2 & H).
  pose proof (manager_init_params_environ w) as He1. rewrite E1 in He1. simpl in He1.
  pose proof (manager_init_preimport_environ w2) as He3. rewrite H in He3. simpl in He3.
  destruct (manager_init_identity_Ok w1 w2 E2) as (Hd & Hc & Hk & Hv).
  rewrite He3, <- He1.
  split; [done |]. split; [done |]. split; [done |].
  exists (store w2). split; [by apply manager_init_preimport_store | done].
Qed.

End Identity.

(** * manager_init: clears and defaults at boot *)

Section BootParams.
Context (X : Ext).

Lemma default_params_run w dp w' :
  default_params X w = (Ok dp, w') ->
  w' = w /\
  exists tail,
    dp = default_params_table X
           (String.eqb (get_short_branch X) "FrogPilot-Development") ++ tail.
Proof.
  unfold default_params. destruct (negb (PC X)).
  - unfold bind, get_trace, ret. intros [= <- <-]. split; [done |]. by eexists.
  - unfold ret. intros [= <- <-]. split; [done |]. exists []. by rewrite app_nil_r.
Qed.

Lemma manager_init_params_store w w' :
  manager_init_params X w = (Ok tt, w') ->
  exists dp tail,
    dp = default_params_table X
           (String.eqb (get_short_branch X) "FrogPilot-Development") ++ tail /\
    store w' = put_all (unset_entries dp (record_front_lock X (boot_clears X (store w))))
                 (record_front_lock X (boot_clears X (store w))).
Proof.
  intros H. unfold manager_init_params in H.
  apply bind_Ok_inv in H as ([] & w1 & E1 & H).
  apply bind_Ok_inv in H as ([] & w2 & E2 & H).
  apply bind_Ok_inv in H as ([] & w3 & E3 & H).
  apply bind_Ok_inv in H as (h & w4 & E4 & H).
  apply bind_Ok_inv in H as ([] & w5 & E5 & H).
  apply bind_Ok_inv in H as ([] & w6 & E6 & H).
  apply bind_Ok_inv in H as ([] & w7 & E7 & H).
  apply bind_Ok_inv in H as ([] & w8 & E8 & H).
  apply bind_Ok_inv in H as ([] & w9 & E9 & H).
  apply bind_Ok_inv in H as (dp & w10 & E10 & H).
  apply bind_Ok_inv in H as (rfl & w11 & E11 & H).
  apply bind_Ok_inv in H as ([] & w12 & E12 & H).
  apply default_params_run in E10 as [-> (tail & Hdp)].
  assert (S1 : store w1 = store w) by (unfold emit in E1; by injection E1 as <-).
  assert (S2 : store w2 = store w1)
    by (unfold call in E2; destruct (fault X _ _); [done | by injection E2 as <-]).
  assert (S3 : store w3 = store w2)
    by (unfold call in E3; destruct (fault X _ _); [done | by injection E3 as <-]).
  assert (S4 : store w4 = store w3) by (unfold get_trace in E4; by injection E4 as <- <-).
  assert (S5 : store w5 = store w4).
  { unfold when, call in E5. destruct (os_path_isfile X h _).
    - destruct (fault X _ _); [done | by injection E5 as <-].
    - by injection E5 as <-. }
  assert (S6 : store w6 = clear_keys X CLEAR_ON_MANAGER_START (store w5))
    by (unfold params_clear_all in E6; by injection E6 as <-).
  assert (S7 : store w7 = clear_keys X CLEAR_ON_ONROAD_TRANSITION (store w6))
    by (unfold params_clear_all in E7; by injection E7 as <-).
  assert (S8 : store w8 = clear_keys X CLEAR_ON_OFFROAD_TRANSITION (store w7))
    by (unfold params_clear_all in E8; by injection E8 as <-).
  assert (S9 : store w9 = boot_clears X (store w)).
  { unfold boot_clears, when, params_clear_all in *.
    destruct (is_release_branch X); injection E9 as <-; simpl;
      by rewrite ?S8, S7, S6, S5, S4, S3, S2, S1. }
  assert (S11 : w11 = w9 /\ rfl = decode_bool X (store w9 !! "RecordFrontLock"))
    by (unfold params_get_bool in E11; by injection E11 as <- <-).
  destruct S11 as [-> ->].
  assert (S12 : store w12 = record_front_lock X (boot_clears X (store w))).
  { unfold record_front_lock, when, params_put_bool, params_put in *. rewrite <- S9.
    destruct (decode_bool X (store w9 !! "RecordFrontLock")); by injection E12 as <-. }
  exists dp, tail. split; [done |].
  rewrite set_unset_params_run in H. injection H as <-. simpl. by rewrite S12.
Qed.

Lemma clear_keys_lookup t s k :
  clear_keys X t s !! k = if key_type X k t then None else s !! k.
Proof.
  unfold clear_keys. destruct (key_type X k t) eqn:Ek.
  - apply map_lookup_filter_None. right. intros v _. simpl. by rewrite Ek.
  - destruct (s !! k) as [v |] eqn:Es.
    + apply map_lookup_filter_Some. by split.
    + apply map_lookup_filter_None. by left.
Qed.

Lemma boot_clears_lookup s k :
  boot_clears X s !! k =
  if existsb (key_type X k) (cleared_at_boot X) then None else s !! k.
Proof.
  unfold boot_clears, cleared_at_boot.
  destruct (is_release_branch X); simpl; rewrite !clear_keys_lookup;
    repeat (destruct (key_type X k _); simpl; try done).
Qed.

Lemma record_front_lock_lookup s k :
  k <> "RecordFront" -> record_front_lock X s !! k = s !! k.
Proof.
  intros Hk. unfold record_front_lock.
  destruct (decode_bool X _); [by rewrite lookup_insert_ne | done].
Qed.

Lemma table_get_is_Some dp kv : kv ∈ dp -> is_Some (table_get dp kv.1).
Proof.
  induction dp as [| kv0 dp IH]; intros Hin; [by apply elem_of_nil in Hin |].
  simpl. destruct (String.eqb_spec kv0.1 kv.1) as [_ | Hne]; [by eexists |].
  apply elem_of_cons in Hin as [-> | Hin]; [done | by apply IH].
Qed.

(** X11: when the parameter part of [manager_init] completes
    (lines 30-186), a key outside the categories cleared at boot keeps
    the value it had, a key inside them ends with its first default or
    absent, and every key of the table of defaults has a value.
    RecordFront, which line 181 may write, is left aside. *)
Theorem boot_clears_then_defaults w w' :
  manager_init_params X w = (Ok tt, w') ->
  exists dp tail,
    dp = default_params_table X
           (String.eqb (get_short_branch X) "FrogPilot-Development") ++ tail /\
    (forall k v,
       store w !! k = Some v ->
       existsb (key_type X k) (cleared_at_boot X) = false ->
       k <> "RecordFront" ->
       store w' !! k = Some v) /\
    (forall k,
       existsb (key_type X k) (cleared_at_boot X) = true ->
       k <> "RecordFront" ->
       store w' !! k = table_get dp k) /\
    (forall kv, kv ∈ dp -> is_Some (store w' !! kv.1)).
Proof.
  intros H. destruct (manager_init_params_store w w' H) as (dp & tail & Hdp & Hs).
  exists dp, tail. split; [done |]. rewrite Hs. split; [| split].
  - intros k v Hv Hc Hk.
    by rewrite put_all_unset, record_front_lock_lookup, boot_clears_lookup, Hc, Hv.
  - intros k Hc Hk.
    by rewrite put_all_unset, record_front_lock_lookup, boot_clears_lookup, Hc.
  - intros kv Hkv. rewrite put_all_unset.
    destruct (record_front_lock X (boot_clears X (store w)) !! kv.1); [by eexists |].
    by apply table_get_is_Some.
Qed.

End BootParams.

(** * manager_init: registration *)

Section Registration.
Context (X : Ext).

Lemma manager_init_at_register w :
  manager_init X w =
  bind (init_before_register X)
    (fun _ => bind (call X Call_register) (fun _ => init_after_register X)) w.
Proof.
  unfold manager_init, manager_init_identity, init_before_register, init_after_register.
  rewrite bind_assoc. apply bind_ext. intros _ w1.
  rewrite bind_assoc. rewrite (bind_assoc (params_get_float X _)).
  apply bind_ext. intros q w2.
  repeat (rewrite bind_assoc;
          match goal with |- bind ?m _ _ = bind (bind ?m _) _ _ =>
            rewrite (bind_assoc m) end;
          apply bind_ext; intros ? ?).
  repeat (rewrite bind_assoc; apply bind_ext; intros ? ?).
  reflexivity.
Qed.

Lemma init_before_register_quiet :
  footprint (fun ev => is_register ev = false) (init_before_register X).
Proof. unfold init_before_register. footprint_auto. Qed.

Lemma init_after_register_quiet :
  footprint (fun ev => is_register ev = false) (init_after_register X).
Proof. unfold init_after_register. footprint_auto. Qed.

Lemma init_before_register_environ : environ_kept (init_before_register X).
Proof. unfold init_before_register. environ_kept_auto. Qed.

Lemma init_after_register_fails w :
  (register_result X (trace w) = None \/ register_result X (trace w) = Some "") ->
  init_after_register X w = (Raise (PyException "Exception"), w).
Proof.
  intros H. unfold init_after_register, bind at 1, get_trace. unfold bind at 1.
  by destruct H as [-> | ->].
Qed.

(** X12: if [register] returns None or the empty string,
    [manager_init] raises [Exception] right then: the call of [register]
    is its last event, and the environment is as it was, so DONGLE_ID is
    not set and neither sentry nor the pre-import is reached
    (lines 241-247). *)
Theorem registration_failure_is_fatal w n :
  let evs := events_of (manager_init X) w in
  evs !! n = Some Call_register ->
  fault X (trace w ++ take n evs) Call_register = None ->
  (register_result X (trace w ++ take (S n) evs) = None \/
   register_result X (trace w ++ take (S n) evs) = Some "") ->
  (manager_init X w).1 = Raise (PyException "Exception") /\
  length evs = S n /\
  environ (manager_init X w).2 = environ w.
Proof.
  intros evs Hn Hfault Hres. subst evs.
  set (K := bind (call X Call_register) (fun _ => init_after_register X)).
  assert (HgK : grows K).
  { unfold K. apply footprint_bind; [footprint_auto |].
    intros ?. apply (footprint_grows _ _ init_after_register_quiet). }
  assert (Hev : events_of (manager_init X) w =
            events_of (init_before_register X) w ++
            match init_before_register X w with
            | (Ok _, w1) => events_of K w1
            | _ => []
            end).
  { rewrite (events_of_ext _ _ w (manager_init_at_register w)).
    apply events_of_bind; [apply (footprint_grows _ _ init_before_register_quiet) | done]. }
  rewrite Hev in *. clear Hev. rewrite manager_init_at_register. fold K.
  destruct (footprint_events _ _ w init_before_register_quiet) as [Ht Hq].
  pose proof (init_before_register_environ w) as Henv.
  set (eb := events_of (init_before_register X) w) in *.
  assert (Hnot : forall m, eb !! m = Some Call_register -> False).
  { intros m Hl. eapply Forall_lookup_1 in Hq; [| exact Hl]. done. }
  destruct (init_before_register X w) as [[[] | e0 | ] w1] eqn:Eb; simpl in Ht, Henv.
  2,3: rewrite app_nil_r in Hn; exfalso; by eapply Hnot.
  rewrite (bind_Ok _ _ _ _ _ Eb).
  assert (HevK : events_of K w1 =
            [Call_register] ++
            match call X Call_register w1 with
            | (Ok _, w2) => events_of (init_after_register X) w2
            | _ => []
            end).
  { unfold K.
    rewrite events_of_bind
      by first [ intros ?; apply (footprint_grows _ _ init_after_register_quiet)
               | grows_auto ].
    by rewrite call_events. }
  rewrite HevK in *. clear HevK.
  assert (Hnn : n = length eb).
  { destruct (lt_eq_lt_dec n (length eb)) as [[Hlt | ->] | Hgt]; [| done |].
    - rewrite lookup_app_l in Hn by done. exfalso. eauto.
    - rewrite lookup_app_r in Hn by lia.
      destruct (n - length eb) as [| k] eqn:Ek; [lia |]. simpl in Hn.
      destruct (call X Call_register w1) as [[[] | e | ] w2]; simpl in Hn;
        try by rewrite lookup_nil in Hn.
      destruct (footprint_events _ _ w2 init_after_register_quiet) as [_ Hq2].
      eapply Forall_lookup_1 in Hq2; [| exact Hn]. done. }
  subst n.
  rewrite take_app_length in Hfault. rewrite <- Ht in Hfault.
  assert (Ec : call X Call_register w1 = (Ok tt, record Call_register w1))
    by (unfold call; by rewrite Hfault).
  rewrite Ec in *.
  rewrite app_assoc in Hres. rewrite take_app_length' in Hres
    by (rewrite length_app; simpl; lia).
  rewrite app_assoc, <- Ht in Hres.
  pose proof (init_after_register_fails (record Call_register w1) Hres) as Ea.
  unfold K. rewrite (bind_Ok _ _ _ _ _ Ec), Ea. simpl.
  split; [done |]. split; [| done].
  rewrite (events_of_nil (init_after_register X) _) by (by rewrite Ea).
  rewrite length_app. simpl. lia.
Qed.

End Registration.

(** * manager_init: the shared-memory folder *)

Section Shm.
Context (X : Ext).

Lemma manager_init_at_mkdir w :
  manager_init X w =
  bind (init_before_mkdir X)
    (fun _ => bind (make_shm X)
       (fun _ => bind (params_put "Version" (get_version X))
          (fun _ => init_after_version X))) w.
Proof.
  unfold manager_init, manager_init_identity, init_before_mkdir, make_shm,
    init_after_version, init_after_register.
  rewrite bind_assoc. apply bind_ext. intros _ w1.
  rewrite bind_assoc. rewrite (bind_assoc (params_get_float X _)).
  apply bind_ext. intros q w2.
  repeat (rewrite bind_assoc;
          match goal with |- bind ?m _ _ = bind (bind ?m _) _ _ =>
            rewrite (bind_assoc m) end;
          apply bind_ext; intros ? ?).
  repeat (rewrite bind_assoc; apply bind_ext; intros ? ?).
  reflexivity.
Qed.



Lemma init_before_mkdir_quiet :
  footprint (fun ev => is_mkdir ev = false) (init_before_mkdir X).
Proof. unfold init_before_mkdir. footprint_auto. Qed.

Lemma init_after_version_quiet :
  footprint (fun ev => is_mkdir ev = false) (init_after_version X).
Proof. unfold init_after_version, init_after_register. footprint_auto. Qed.

Lemma make_shm_run w :
  make_shm X w =
  match fault X (trace w) shm with
  | None => (Ok tt, record shm w)
  | Some e =>
      if is_class "FileExistsError" e then (Ok tt, record shm w)
      else if is_class "PermissionError" e then (Ok tt, record shm_warning (record shm w))
      else (Raise e, record shm w)
  end.
Proof.
  unfold make_shm, try_except, call, shm.
  destruct (fault X (trace w) (Call_os_mkdir "/dev/shm")) as [e |]; [| done].
  by destruct (is_class "FileExistsError" e), (is_class "PermissionError" e).
Qed.

Lemma make_shm_events w :
  events_of (make_shm X) w =
  shm :: match fault X (trace w) shm with
         | Some e => if is_class "FileExistsError" e then []
                     else if is_class "PermissionError" e then [shm_warning] else []
         | None => []
         end.
Proof.
  apply events_of_app. rewrite make_shm_run.
  destruct (fault X (trace w) shm) as [e |]; [| done].
  destruct (is_class "FileExistsError" e); [done |].
  destruct (is_class "PermissionError" e); [| done].
  simpl. by rewrite <- app_assoc.
Qed.

Lemma make_shm_grows : grows (make_shm X).
Proof. unfold make_shm. grows_auto. Qed.

(** X13: a failing [os.mkdir("/dev/shm")] (lines 223-229).
    FileExistsError is passed over in silence and PermissionError after
    one warning, and [manager_init] goes on with the Version stamp; any
    other exception ends [manager_init], the call being its last
    event. *)
Theorem shm_errors_are_absorbed w n e :
  let evs := events_of (manager_init X) w in
  evs !! n = Some shm ->
  fault X (trace w ++ take n evs) shm = Some e ->
  if is_class "FileExistsError" e then evs !! S n = Some (version_put X)
  else if is_class "PermissionError" e then
    evs !! S n = Some shm_warning /\ evs !! S (S n) = Some (version_put X)
  else (manager_init X w).1 = Raise e /\ length evs = S n.
Proof.
  intros evs Hn Hfault. subst evs.
  set (V := bind (params_put "Version" (get_version X)) (fun _ => init_after_version X)).
  set (K := bind (make_shm X) (fun _ => V)).
  assert (HqV : footprint (fun ev => is_mkdir ev = false) V).
  { unfold V. apply footprint_bind; [footprint_auto |].
    intros ?. apply init_after_version_quiet. }
  assert (HevV : forall w2, exists tl, events_of V w2 = version_put X :: tl).
  { intros w2. unfold V.
    rewrite events_of_bind
      by first [ intros ?; apply (footprint_grows _ _ init_after_version_quiet)
               | grows_auto ].
    eexists. unfold params_put at 2. simpl.
    replace (events_of (params_put "Version" (get_version X)) w2) with [version_put X]
      by (symmetry; by apply events_of_app).
    reflexivity. }
  assert (Hev : events_of (manager_init X) w =
            events_of (init_before_mkdir X) w ++
            match init_before_mkdir X w with
            | (Ok _, w1) => events_of K w1
            | _ => []
            end).
  { rewrite (events_of_ext _ _ w (manager_init_at_mkdir w)).
    apply events_of_bind; [apply (footprint_grows _ _ init_before_mkdir_quiet) |].
    intros ?. apply footprint_bind; [apply make_shm_grows |].
    intros ?. apply (footprint_grows _ _ HqV). }
  assert (HevK : forall w1, events_of K w1 =
            events_of (make_shm X) w1 ++
            match make_shm X w1 with
            | (Ok _, w2) => events_of V w2
            | _ => []
            end).
  { intros w1. unfold K. apply events_of_bind; [apply make_shm_grows |].
    intros ?. apply (footprint_grows _ _ HqV). }
  rewrite Hev in *. clear Hev. rewrite manager_init_at_mkdir. fold V. fold K.
  destruct (footprint_events _ _ w init_before_mkdir_quiet) as [Ht Hq].
  set (eb := events_of (init_before_mkdir X) w) in *.
  assert (Hnot : forall m, eb !! m = Some shm -> False).
  { intros m Hl. eapply Forall_lookup_1 in Hq; [| exact Hl]. done. }
  destruct (init_before_mkdir X w) as [[[] | e0 | ] w1] eqn:Eb; simpl in Ht.
  2,3: rewrite app_nil_r in Hn; exfalso; by eapply Hnot.
  rewrite (bind_Ok _ _ _ _ _ Eb).
  rewrite HevK in *. rewrite make_shm_events in *.
  assert (Hnn : n = length eb).
  { destruct (lt_eq_lt_dec n (length eb)) as [[Hlt | ->] | Hgt]; [| done |].
    - rewrite lookup_app_l in Hn by done. exfalso. eauto.
    - rewrite lookup_app_r in Hn by lia.
      destruct (n - length eb) as [| k] eqn:Ek; [lia |]. simpl in Hn.
      exfalso.
      assert (Hrest : Forall (fun ev => is_mkdir ev = false)
                (match fault X (trace w1) shm with
                 | Some e => if is_class "FileExistsError" e then []
                             else if is_class "PermissionError" e then [shm_warning] else []
                 | None => []
                 end ++
                 match make_shm X w1 with
                 | (Ok _, w2) => events_of V w2
                 | _ => []
                 end)).
      { apply Forall_app. split.
        - destruct (fault X (trace w1) shm) as [e1 |]; [| done].
          destruct (is_class "FileExistsError" e1); [done |].
          destruct (is_class "PermissionError" e1); [| done].
          by constructor.
        - destruct (make_shm X w1) as [[[] | e1 | ] w2]; try done.
          by destruct (footprint_events _ _ w2 HqV). }
      eapply Forall_lookup_1 in Hrest; [| exact Hn]. done. }
  subst n.
  rewrite take_app_length in Hfault. rewrite <- Ht in Hfault.
  pose proof (make_shm_run w1) as Em. rewrite Hfault in *.
  unfold K at 1. 
  destruct (is_class "FileExistsError" e).
  - rewrite Em. destruct (HevV (record shm w1)) as (tl & ->).
    rewrite lookup_app_r by lia. by replace (S (length eb) - length eb) with 1 by lia.
  - destruct (is_class "PermissionError" e).
    + rewrite Em. destruct (HevV (record shm_warning (record shm w1))) as (tl & ->).
      split; rewrite lookup_app_r by lia.
      * by replace (S (length eb) - length eb) with 1 by lia.
      * by replace (S (S (length eb)) - length eb) with 2 by lia.
    + rewrite Em. rewrite (bind_Raise _ _ _ _ _ Em). split; [done |].
      rewrite length_app. simpl. lia.
Qed.

End Shm.

(** * The scenarios, run *)

(** Section 8 of the spec: registry {A: ALWAYS, B: ONROAD_ONLY}, empty
    ignore set, [started] going false, true, true, false. *)
Example spec_scenario_desired_states :
  map (fun s => Reconciler.desired_states registry_AB s []) [false; true; true; false] =
  [ [("A", true); ("B", false)]; [("A", true); ("B", true)];
    [("A", true); ("B", true)]; [("A", true); ("B", false)] ].
Proof. reflexivity. Qed.

(** Section 8 of the spec: ignore set {B}, onroad. *)
Example spec_scenario_ignored :
  Reconciler.desired_states registry_AB true ["B"] = [("A", true); ("B", false)].
Proof. reflexivity. Qed.

(** Section 8 of the spec: DoReboot is set while the loop runs. *)
Example spec_scenario_reboot :
  (main ext_quiet [offroad_tick; reboot_tick; offroad_tick] world0).1 = Ok tt /\
  count_occ Event_eq_dec
    (events_of (main ext_quiet [offroad_tick; reboot_tick; offroad_tick]) world0)
    Call_sm_update = 2 /\
  store (main ext_quiet [offroad_tick; reboot_tick; offroad_tick] world0).2 !! reason_key =
    Some "DoReboot 2024-06-01 00:00:00" /\
  filter is_stop (events_of (main ext_quiet [offroad_tick; reboot_tick; offroad_tick]) world0) =
    [Call_stop "A" false; Call_stop "B" false; Call_stop "A" true; Call_stop "B" true] /\
  filter is_host_action
    (events_of (main ext_quiet [offroad_tick; reboot_tick; offroad_tick]) world0) =
    [Call_reboot].
Proof. vm_compute. auto 10. Qed.

(** A turn of the loop on a rising edge. *)
Example rising_edge_tick :
  events_of (tick ext_quiet ["uploader"] onroad_tick false) world0 =
  [ Call_sm_update; Params_clear_all CLEAR_ON_ONROAD_TRANSITION;
    Call_write_onroad_params true; Call_ensure_running true ["uploader"];
    Call_is_alive "A"; Call_is_alive "B"; Log "running"; Log "running";
    Call_get_process_state_msg "A"; Call_get_process_state_msg "B";
    Call_pm_send "managerState" ["A"; "B"] ].
Proof. reflexivity. Qed.

(** The state stream runs dry before a shutdown flag is set. *)
Example loop_cut_off :
  (manager_thread ext_quiet [offroad_tick; onroad_tick] world0).1 = Fuel.
Proof. reflexivity. Qed.

(** Lines 289-294 with no dongle id, NOBOARD set and BLOCK="ui,,navd". *)
Example ignore_list_blocked :
  (ignore_list ext_quiet world_custom).1 =
  Ok ["manage_athenad"; "uploader"; "pandad"; "ui"; "navd"].
Proof. reflexivity. Qed.

(** A value the user chose survives initialization, an absent key gets
    its default. *)
Example defaults_respect_choice :
  store (manager_init ext_quiet world_custom).2 !! "LanguageSetting" = Some "main_de" /\
  store (manager_init ext_quiet world_custom).2 !! "OpenpilotEnabledToggle" = Some "1" /\
  store (manager_init ext_quiet world_custom).2 !! "SLCPriority1" = Some "3".
Proof. vm_compute. auto. Qed.

(** The legacy remapping of lines 193-221 comes after the defaults and
    does rewrite the three priority slots when [SLCPriority] is not 0. *)
Example legacy_priority_remapped :
  store (manager_init ext_legacy_slc world_custom).2 !! "SLCPriority1" = Some "2.0" /\
  store (manager_init ext_legacy_slc world_custom).2 !! "SLCPriority2" = Some "3.0" /\
  store (manager_init ext_legacy_slc world_custom).2 !! "SLCPriority3" = Some "1.0".
Proof. vm_compute. auto. Qed.


(** C1, the claim fails: pre-importing A raises ImportError, and with it
    [manager_init] raises instead of completing; B is never pre-imported
    and nothing is logged after the failed call. *)
Lemma prepare_failure_aborts_init :
  (manager_init ext_prepare_fails world0).1 = Raise (PyException "ImportError") /\
  filter is_prepare (events_of (manager_init ext_prepare_fails) world0) = [Call_prepare "A"] /\
  last (events_of (manager_init ext_prepare_fails) world0) = Some (Call_prepare "A").
Proof. vm_compute. auto. Qed.

(** C1, [preimport_not_guarded] at work: with nothing raising, A and B
    are pre-imported in order; with A's pre-import raising, the failed
    call is the last event of [manager_init]. *)
Lemma preimport_not_guarded_witness :
  ((manager_init ext_quiet world0).1 = Ok tt /\
   filter is_prepare (events_of (manager_init ext_quiet) world0) =
     Call_prepare <$> registry ext_quiet) /\
  (events_of (manager_init ext_prepare_fails) world0 !! 141 = Some (Call_prepare "A") /\
   fault ext_prepare_fails
     (trace world0 ++ take 141 (events_of (manager_init ext_prepare_fails) world0))
     (Call_prepare "A") = Some (PyException "ImportError") /\
   (manager_init ext_prepare_fails world0).1 = Raise (PyException "ImportError") /\
   length (events_of (manager_init ext_prepare_fails) world0) = 142).
Proof.
  assert (H1 : (manager_init ext_quiet world0).1 = Ok tt) by (vm_compute; reflexivity).
  assert (H2 : events_of (manager_init ext_prepare_fails) world0 !! 141 =
               Some (Call_prepare "A")) by (vm_compute; reflexivity).
  assert (H3 : fault ext_prepare_fails
                 (trace world0 ++ take 141 (events_of (manager_init ext_prepare_fails) world0))
                 (Call_prepare "A") = Some (PyException "ImportError"))
    by (vm_compute; reflexivity).
  split; [split; [exact H1 |] | split; [exact H2 | split; [exact H3 |]]].
  - exact (proj1 (preimport_not_guarded ext_quiet world0) H1).
  - exact (proj2 (preimport_not_guarded ext_prepare_fails world0) 141 "A" _ H2 H3).
Defined.



(** C3, [clears_per_tick] at work: a rising edge, a falling edge, no
    edge. *)
Lemma clears_per_tick_witness :
  fault ext_quiet (trace world0) Call_sm_update = None /\
  filter is_clear (events_of (tick ext_quiet [] onroad_tick false) world0) =
    [Params_clear_all CLEAR_ON_ONROAD_TRANSITION] /\
  filter is_clear (events_of (tick ext_quiet [] offroad_tick true) world0) =
    [Params_clear_all CLEAR_ON_OFFROAD_TRANSITION] /\
  filter is_clear (events_of (tick ext_quiet [] onroad_tick true) world0) = [].
Proof.
  assert (H : fault ext_quiet (trace world0) Call_sm_update = None) by reflexivity.
  split; [exact H |]. split; [| split].
  - exact (clears_per_tick ext_quiet [] onroad_tick false world0 H).
  - exact (clears_per_tick ext_quiet [] offroad_tick true world0 H).
  - exact (clears_per_tick ext_quiet [] onroad_tick true world0 H).
Defined.

(** C4, [shutdown_flag_ends_loop] at work: DoReboot is set while the
    manager waits for the device state; the loop ends with that turn and
    the next state is never read. *)
Lemma shutdown_flag_ends_loop_witness :
  tick ext_quiet [] reboot_tick false world0 =
    (Ok true, world_after_tick ext_quiet reboot_tick) /\
  flag ext_quiet (store (world_after_tick ext_quiet reboot_tick)) "DoReboot" = true /\
  (exists h, Params_put reason_key (exit_reason "DoReboot" (datetime_now ext_quiet h))
               ∈ events_of (tick ext_quiet [] reboot_tick false) world0) /\
  manager_loop ext_quiet [] [reboot_tick; offroad_tick] false world0 =
    (Ok tt, world_after_tick ext_quiet reboot_tick).
Proof.
  assert (H : tick ext_quiet [] reboot_tick false world0 =
              (Ok true, world_after_tick ext_quiet reboot_tick))
    by (vm_compute; reflexivity).
  assert (Hf : flag ext_quiet (store (world_after_tick ext_quiet reboot_tick)) "DoReboot" = true)
    by (vm_compute; reflexivity).
  assert (Hp : "DoReboot" ∈ shutdown_params) by (unfold shutdown_params; repeat constructor).
  destruct (shutdown_flag_ends_loop ext_quiet [] reboot_tick [offroad_tick] false world0
              true _ H) as (Hw & Hend & _).
  split; [exact H |]. split; [exact Hf |]. split.
  - exact (Hw "DoReboot" Hp Hf).
  - apply Hend. exists "DoReboot". by split.
Defined.


(** C10, [exit_reason_names_last_flag] at work: DoUninstall and DoReboot
    are both set; the recorded reason names DoReboot, the terminal action
    is uninstall. *)
Lemma exit_reason_names_last_flag_witness :
  tick ext_quiet [] uninstall_and_reboot_tick false world0 =
    (Ok true, world_after_tick ext_quiet uninstall_and_reboot_tick) /\
  store (world_after_tick ext_quiet uninstall_and_reboot_tick) !! reason_key =
    Some (exit_reason "DoReboot" "2024-06-01 00:00:00") /\
  exists rs,
    rs.*1 = filter (fun p => flag ext_quiet
                     (store (world_after_tick ext_quiet uninstall_and_reboot_tick)) p = true)
              shutdown_params /\
    filter is_reason_put
      (events_of (tick ext_quiet [] uninstall_and_reboot_tick false) world0) =
      (fun r => Params_put reason_key (exit_reason r.1 r.2)) <$> rs /\
    last rs.*1 = Some "DoReboot" /\
    filter is_host_action
      (events_of (terminal_action ext_quiet)
         (world_after_tick ext_quiet uninstall_and_reboot_tick)) = [Call_uninstall].
Proof.
  assert (H : tick ext_quiet [] uninstall_and_reboot_tick false world0 =
              (Ok true, world_after_tick ext_quiet uninstall_and_reboot_tick))
    by (vm_compute; reflexivity).
  split; [exact H |]. split; [vm_compute; reflexivity |].
  destruct (exit_reason_names_last_flag ext_quiet [] uninstall_and_reboot_tick false world0
              true _ H) as (rs & Hrs & Hputs & _ & _ & Hdiv).
  exists rs. split; [exact Hrs |]. split; [exact Hputs |].
  apply (Hdiv _ eq_refl); vm_compute; reflexivity.
Defined.

(** X1, [onroad_params_on_edges] at work: a rising edge, a falling edge,
    no edge. *)
Lemma onroad_params_on_edges_witness :
  fault ext_quiet (trace world0) Call_sm_update = None /\
  filter is_write_onroad (events_of (tick ext_quiet [] onroad_tick false) world0) =
    [Call_write_onroad_params true] /\
  filter is_write_onroad (events_of (tick ext_quiet [] offroad_tick true) world0) =
    [Call_write_onroad_params false] /\
  filter is_write_onroad (events_of (tick ext_quiet [] onroad_tick true) world0) = [].
Proof.
  assert (H : fault ext_quiet (trace world0) Call_sm_update = None) by reflexivity.
  split; [exact H |]. split; [| split].
  - exact (onroad_params_on_edges ext_quiet [] onroad_tick false world0 H).
  - exact (onroad_params_on_edges ext_quiet [] offroad_tick true world0 H).
  - exact (onroad_params_on_edges ext_quiet [] onroad_tick true world0 H).
Defined.

(** X4, [loop_returns_on_flag] at work: DoReboot is set in the second
    turn and [manager_thread] returns. *)
Lemma loop_returns_on_flag_witness :
  manager_thread ext_quiet [offroad_tick; reboot_tick; offroad_tick] world0 =
    (Ok tt, (manager_thread ext_quiet [offroad_tick; reboot_tick; offroad_tick] world0).2) /\
  exists p, p ∈ shutdown_params /\
    flag ext_quiet
      (store (manager_thread ext_quiet [offroad_tick; reboot_tick; offroad_tick] world0).2)
      p = true.
Proof.
  assert (H : manager_thread ext_quiet [offroad_tick; reboot_tick; offroad_tick] world0 =
    (Ok tt, (manager_thread ext_quiet [offroad_tick; reboot_tick; offroad_tick] world0).2))
    by (vm_compute; reflexivity).
  split; [exact H |].
  exact (loop_returns_on_flag ext_quiet _ _ _ H).
Defined.

(** X5, [signal_skips_terminal_action] at work: SIGTERM in the first
    turn of the loop. *)
Lemma signal_skips_terminal_action_witness :
  main_head ext_sigterm world0 = (Ok true, world_booted ext_sigterm) /\
  manager_thread ext_sigterm [offroad_tick] (world_booted ext_sigterm) =
    (Raise (SystemExit 1), world_stopped ext_sigterm [offroad_tick]) /\
  is_Exception (SystemExit 1) = false /\
  (forall h p b, fault ext_sigterm h (Call_stop p b) = None) /\
  main ext_sigterm [offroad_tick] world0 =
    (Raise (SystemExit 1),
     record_all (cleanup_events ext_sigterm) (world_stopped ext_sigterm [offroad_tick])) /\
  filter is_host_action (events_of (main ext_sigterm [offroad_tick]) world0) = [].
Proof.
  assert (H1 : main_head ext_sigterm world0 = (Ok true, world_booted ext_sigterm))
    by (vm_compute; reflexivity).
  assert (H2 : manager_thread ext_sigterm [offroad_tick] (world_booted ext_sigterm) =
               (Raise (SystemExit 1), world_stopped ext_sigterm [offroad_tick]))
    by (vm_compute; reflexivity).
  assert (H3 : is_Exception (SystemExit 1) = false) by reflexivity.
  assert (H4 : forall h p b, fault ext_sigterm h (Call_stop p b) = None) by reflexivity.
  split; [exact H1 |]. split; [exact H2 |]. split; [exact H3 |]. split; [exact H4 |].
  exact (signal_skips_terminal_action ext_sigterm _ _ _ _ _ H1 H2 H3 H4).
Defined.


(** X7, [normal_exit_performs_one_action] at work: DoReboot ends the
    loop, and [main] performs one host action. *)
Lemma normal_exit_performs_one_action_witness :
  main_head ext_quiet world0 = (Ok true, world_booted ext_quiet) /\
  manager_thread ext_quiet [reboot_tick] (world_booted ext_quiet) =
    (Ok tt, world_stopped ext_quiet [reboot_tick]) /\
  (forall h p b, fault ext_quiet h (Call_stop p b) = None) /\
  main ext_quiet [reboot_tick] world0 =
    terminal_action ext_quiet
      (record_all (cleanup_events ext_quiet) (world_stopped ext_quiet [reboot_tick])) /\
  length (filter is_host_action (events_of (main ext_quiet [reboot_tick]) world0)) = 1.
Proof.
  assert (H1 : main_head ext_quiet world0 = (Ok true, world_booted ext_quiet))
    by (vm_compute; reflexivity).
  assert (H2 : manager_thread ext_quiet [reboot_tick] (world_booted ext_quiet) =
               (Ok tt, world_stopped ext_quiet [reboot_tick]))
    by (vm_compute; reflexivity).
  assert (H3 : forall h p b, fault ext_quiet h (Call_stop p b) = None) by reflexivity.
  split; [exact H1 |]. split; [exact H2 |]. split; [exact H3 |].
  exact (normal_exit_performs_one_action ext_quiet _ _ _ _ H1 H2 H3).
Defined.

(** X10, [init_registers_device] at work: a clean checkout, nothing
    raises. *)
Lemma init_registers_device_witness :
  manager_init ext_quiet world0 = (Ok tt, (manager_init ext_quiet world0).2) /\
  (exists h d,
     register_result ext_quiet h = Some d /\ d <> "" /\
     environ (manager_init ext_quiet world0).2 !! "DONGLE_ID" = Some d) /\
  environ (manager_init ext_quiet world0).2 !! "CLEAN" = Some "1" /\
  (forall k, k <> "DONGLE_ID" -> k <> "CLEAN" ->
     environ (manager_init ext_quiet world0).2 !! k = environ world0 !! k) /\
  (exists s, store (manager_init ext_quiet world0).2 = helper_store ext_quiet Call_set_model s /\
             forall kv, kv ∈ version_stamps ext_quiet -> s !! kv.1 = Some kv.2).
Proof.
  assert (H : manager_init ext_quiet world0 = (Ok tt, (manager_init ext_quiet world0).2))
    by (vm_compute; reflexivity).
  split; [exact H |].
  exact (init_registers_device ext_quiet _ _ H).
Defined.

(** X11, [boot_clears_then_defaults] at work: the store of
    [world_custom]. *)
Lemma boot_clears_then_defaults_witness :
  manager_init_params ext_quiet world_custom =
    (Ok tt, (manager_init_params ext_quiet world_custom).2) /\
  exists dp tail,
    dp = default_params_table ext_quiet
           (String.eqb (get_short_branch ext_quiet) "FrogPilot-Development") ++ tail /\
    (forall k v,
       store world_custom !! k = Some v ->
       existsb (key_type ext_quiet k) (cleared_at_boot ext_quiet) = false ->
       k <> "RecordFront" ->
       store (manager_init_params ext_quiet world_custom).2 !! k = Some v) /\
    (forall k,
       existsb (key_type ext_quiet k) (cleared_at_boot ext_quiet) = true ->
       k <> "RecordFront" ->
       store (manager_init_params ext_quiet world_custom).2 !! k = table_get dp k) /\
    (forall kv, kv ∈ dp -> is_Some (store (manager_init_params ext_quiet world_custom).2 !! kv.1)).
Proof.
  assert (H : manager_init_params ext_quiet world_custom =
              (Ok tt, (manager_init_params ext_quiet world_custom).2))
    by (vm_compute; reflexivity).
  split; [exact H |].
  exact (boot_clears_then_defaults ext_quiet _ _ H).
Defined.

(** X12, [registration_failure_is_fatal] at work: [register] returns
    None; [manager_init] raises right after the call, the 139th event. *)
Lemma registration_failure_is_fatal_witness :
  events_of (manager_init ext_unregistered) world0 !! 138 = Some Call_register /\
  fault ext_unregistered
    (trace world0 ++ take 138 (events_of (manager_init ext_unregistered) world0))
    Call_register = None /\
  register_result ext_unregistered
    (trace world0 ++ take 139 (events_of (manager_init ext_unregistered) world0)) = None /\
  (manager_init ext_unregistered world0).1 = Raise (PyException "Exception") /\
  length (events_of (manager_init ext_unregistered) world0) = 139 /\
  environ (manager_init ext_unregistered world0).2 = environ world0.
Proof.
  assert (H1 : events_of (manager_init ext_unregistered) world0 !! 138 = Some Call_register)
    by (vm_compute; reflexivity).
  assert (H2 : fault ext_unregistered
                 (trace world0 ++ take 138 (events_of (manager_init ext_unregistered) world0))
                 Call_register = None) by reflexivity.
  assert (H3 : register_result ext_unregistered
                 (trace world0 ++ take 139 (events_of (manager_init ext_unregistered) world0)) =
               None) by reflexivity.
  split; [exact H1 |]. split; [exact H2 |]. split; [exact H3 |].
  exact (registration_failure_is_fatal ext_unregistered world0 138 H1 H2 (or_introl H3)).
Defined.

(** X13, [shm_errors_are_absorbed] at work: the folder exists; the
    folder cannot be made; another error. *)
Lemma shm_errors_are_absorbed_witness :
  (events_of (manager_init (ext_shm "FileExistsError")) world0 !! 129 = Some shm /\
   events_of (manager_init (ext_shm "FileExistsError")) world0 !! 130 =
     Some (version_put (ext_shm "FileExistsError"))) /\
  (events_of (manager_init (ext_shm "PermissionError")) world0 !! 129 = Some shm /\
   events_of (manager_init (ext_shm "PermissionError")) world0 !! 130 = Some shm_warning /\
   events_of (manager_init (ext_shm "PermissionError")) world0 !! 131 =
     Some (version_put (ext_shm "PermissionError"))) /\
  (events_of (manager_init (ext_shm "OSError")) world0 !! 129 = Some shm /\
   (manager_init (ext_shm "OSError") world0).1 = Raise (PyException "OSError") /\
   length (events_of (manager_init (ext_shm "OSError")) world0) = 130).
Proof.
  assert (Ha : events_of (manager_init (ext_shm "FileExistsError")) world0 !! 129 = Some shm)
    by (vm_compute; reflexivity).
  assert (Hb : events_of (manager_init (ext_shm "PermissionError")) world0 !! 129 = Some shm)
    by (vm_compute; reflexivity).
  assert (Hc : events_of (manager_init (ext_shm "OSError")) world0 !! 129 = Some shm)
    by (vm_compute; reflexivity).
  assert (H2 : forall cls,
             fault (ext_shm cls)
               (trace world0 ++ take 129 (events_of (manager_init (ext_shm cls)) world0)) shm =
             Some (PyException cls)) by reflexivity.
  split; [| split].
  - split; [exact Ha |].
    exact (shm_errors_are_absorbed (ext_shm "FileExistsError") world0 129 _
             Ha (H2 "FileExistsError")).
  - split; [exact Hb |].
    exact (shm_errors_are_absorbed (ext_shm "PermissionError") world0 129 _
             Hb (H2 "PermissionError")).
  - split; [exact Hc |].
    exact (shm_errors_are_absorbed (ext_shm "OSError") world0 129 _
             Hc (H2 "OSError")).
Defined.
